(** * BanglaOcr: the page-status state machine of [App.tsx]

    A shallow embedding of the React component [App] (src/App.tsx) and of
    its data model (types.ts: [PageStatus], [Page]).

    The component holds React state ([pages], [selectedPages],
    [isProcessing], [isPdfLoading], [copySuccess]) and a handful of event
    handlers.  Handlers that [await] an external service (pdf.js, the OCR
    service) are split at the [await]: the part before it runs when the
    handler is invoked, the part after it runs when the environment
    delivers the outcome.  The awaits that are pending are kept in
    [flights]; [alert] calls are logged in [alerts].  Every [setPages]
    after an [await] is a functional update ([prev => prev.map ...]), so it
    acts on the pages of the moment the outcome arrives.

    The handlers are closures of the component and are invoked by its view
    only (the JSX returned by [App]).  [offered] transcribes when the view
    offers each of them (conditional rendering, [disabled] attributes), and
    [step] is the component as a whole: an event runs its handler when the
    view offers it.

    Left out: [isDragging] with [handleDragEvents] and [handleDrop] (which
    writes that flag before it hands the file to [handlePdfFile]), what the
    clipboard handler does once [writeText] has settled (it only sets
    [copySuccess], on a timer), the [progress] percentage (a floating-point
    quotient) and the styling helpers. *)

From Stdlib Require Import Ascii String.
From stdpp Require Import base gmap sets list strings pretty.

Local Open Scope string_scope.

(** ** Data model (types.ts) *)

Inductive PageStatus := PENDING | PROCESSING | COMPLETED | FAILED.

#[global] Instance PageStatus_eq_dec : EqDecision PageStatus.
Proof. solve_decision. Defined.

(** A JS [File]: only its name and MIME type matter to the component. *)
Record File := mkFile { name : string; type : string }.

Record Page := mkPage {
  id : string;
  file : File;
  status : PageStatus;
  previewUrl : string;
  text : option string;     (* text?: string *)
  error : option string     (* error?: string *)
}.

(** Object spreads [{ ...p, status: s }], [{ ...p, status: s, text }] and
    the like. *)
Definition with_status (s : PageStatus) (p : Page) : Page :=
  mkPage (id p) (file p) s (previewUrl p) (text p) (error p).
Definition with_text (t : option string) (p : Page) : Page :=
  mkPage (id p) (file p) (status p) (previewUrl p) t (error p).
Definition with_error (e : option string) (p : Page) : Page :=
  mkPage (id p) (file p) (status p) (previewUrl p) (text p) e.

(** ** React state of the component (App.tsx lines 14-19) *)

Record AppState := mkAppState {
  pages : list Page;
  selectedPages : gset string;
  isProcessing : bool;
  isPdfLoading : bool;
  copySuccess : string
}.

Definition setPages (f : list Page → list Page) (st : AppState) : AppState :=
  mkAppState (f (pages st)) (selectedPages st) (isProcessing st)
             (isPdfLoading st) (copySuccess st).
Definition setSelectedPages (f : gset string → gset string) (st : AppState) : AppState :=
  mkAppState (pages st) (f (selectedPages st)) (isProcessing st)
             (isPdfLoading st) (copySuccess st).
Definition setIsProcessing (b : bool) (st : AppState) : AppState :=
  mkAppState (pages st) (selectedPages st) b (isPdfLoading st) (copySuccess st).
Definition setIsPdfLoading (b : bool) (st : AppState) : AppState :=
  mkAppState (pages st) (selectedPages st) (isProcessing st) b (copySuccess st).
Definition setCopySuccess (s : string) (st : AppState) : AppState :=
  mkAppState (pages st) (selectedPages st) (isProcessing st) (isPdfLoading st) s.

(** ** Outcomes delivered by the external services *)

(** [await extractTextFromImage(page)]: the text, or a thrown value that is
    an [Error] (with its message) or something else. *)
Inductive OcrOutcome :=
| Recognized (t : string)
| ThrownError (message : string)
| ThrownOther.

(** One entry per PDF page: the random UUID and the preview URL, or [None]
    when the canvas context or the blob was [null] (lines 42, 52). *)
Record Rendered := mkRendered { uuid : string; preview : string }.

Inductive DecodeOutcome :=
| DecodeThrew
| Decoded (rs : list (option Rendered)).

(** ** The runtime around the state: pending awaits and the alert log *)

Inductive Flight :=
| Decoding                         (* handlePdfFile, awaiting pdf.js *)
| Batch (waiting : list string)    (* processSelectedPages: ids whose OCR call is pending *)
| Retry (pid : string).            (* retryPageProcessing, awaiting the OCR call *)

#[global] Instance Flight_eq_dec : EqDecision Flight.
Proof. solve_decision. Defined.

Record Sys := mkSys {
  st : AppState;
  flights : list Flight;
  alerts : list string      (* most recent first *)
}.

Definition onState (f : AppState → AppState) (s : Sys) : Sys :=
  mkSys (f (st s)) (flights s) (alerts s).
Definition alert (msg : string) (s : Sys) : Sys :=
  mkSys (st s) (flights s) (msg :: alerts s).
Definition launch (f : Flight) (s : Sys) : Sys :=
  mkSys (st s) (flights s ++ [f]) (alerts s).
Definition land (k : nat) (s : Sys) : Sys :=
  mkSys (st s) (delete k (flights s)) (alerts s).
Definition reroute (k : nat) (f : Flight) (s : Sys) : Sys :=
  mkSys (st s) (<[k := f]> (flights s)) (alerts s).

Definition init : Sys :=
  mkSys (mkAppState [] ∅ false false "") [] [].

(** ** Handlers *)

(** [prev.map(p => p.id === pid ? f(p) : p)] *)
Definition updatePage (pid : string) (f : Page → Page) (ps : list Page) : list Page :=
  (λ p, if String.eqb (id p) pid then f p else p) <$> ps.

(** The three updaters of [processSelectedPages] (lines 105-118). *)
Definition markProcessing (pid : string) : list Page → list Page :=
  updatePage pid (with_status PROCESSING).
Definition markCompleted (pid t : string) : list Page → list Page :=
  updatePage pid (λ p, with_text (Some t) (with_status COMPLETED p)).
Definition markFailed (pid msg : string) : list Page → list Page :=
  updatePage pid (λ p, with_error (Some msg) (with_status FAILED p)).

(** The first updater of [retryPageProcessing] (lines 136-138):
    [{ ...p, status: PROCESSING, error: undefined }]. *)
Definition markRetrying (pid : string) : list Page → list Page :=
  updatePage pid (λ p, with_error None (with_status PROCESSING p)).

(** [error instanceof Error ? error.message : 'An unknown error occurred.'] *)
Definition errorMessage (message : option string) : string :=
  match message with
  | Some m => m
  | None => "An unknown error occurred."
  end.

(** The [try]/[catch] around the OCR call, after the [await]; the same in
    [processSelectedPages] (lines 109-119) and [retryPageProcessing]
    (lines 140-150). *)
Definition settle (pid : string) (o : OcrOutcome) : list Page → list Page :=
  match o with
  | Recognized t => markCompleted pid t
  | ThrownError m => markFailed pid (errorMessage (Some m))
  | ThrownOther => markFailed pid (errorMessage None)
  end.

Definition processable (p : Page) : bool :=
  bool_decide (status p = PENDING) || bool_decide (status p = FAILED).

(** [handlePdfFile], up to the first [await] (lines 21-33). *)
Definition handlePdfFile (pdfFile : option File) (s : Sys) : Sys :=
  match pdfFile with
  | Some f =>
      if String.eqb (type f) "application/pdf" then
        launch Decoding
          (onState (λ a, setCopySuccess "" (setIsPdfLoading true
                           (setSelectedPages (λ _, ∅) (setPages (λ _, []) a)))) s)
      else alert "Please upload a valid PDF file." s
  | None => alert "Please upload a valid PDF file." s
  end.

(** The page built at index [i] (lines 36-62). *)
Definition newPage (i : nat) (r : Rendered) : Page :=
  mkPage (uuid r)
         (mkFile ("page_" +:+ pretty (i + 1)%nat +:+ ".jpg") "image/jpeg")
         PENDING (preview r) None None.

(** [(await Promise.all(pagePromises)).filter(p => p !== null)] *)
Definition newPages (rs : list (option Rendered)) : list Page :=
  omap (λ x, x) (imap (λ i r, newPage i <$> r) rs).

(** [handlePdfFile] after the awaits: [setPages(newPages)], or the [catch]
    branch; then [finally] (lines 65-73). *)
Definition pdfDecoded (o : DecodeOutcome) (s : Sys) : Sys :=
  onState (setIsPdfLoading false)
    match o with
    | Decoded rs => onState (setPages (λ _, newPages rs)) s
    | DecodeThrew =>
        alert "There was an error processing the PDF. Please ensure it's a valid file." s
    end.

(** The end of [processSelectedPages], after [Promise.all] (lines 124-125). *)
Definition batchDone (a : AppState) : AppState :=
  setIsProcessing false (setSelectedPages (λ _, ∅) a).

(** [processSelectedPages] up to [await Promise.all] (lines 96-122).  The
    callbacks of [pagesToProcess.map] run in list order up to their own
    [await]: each page that passes the status test is marked and its OCR
    call started.  When no call was started, [Promise.all] is already
    settled and the handler runs to its end. *)
Definition processSelectedPages (s : Sys) : Sys :=
  let a := st s in
  if bool_decide (size (selectedPages a) = 0) then s
  else
    let pagesToProcess := filter (λ p, id p ∈ selectedPages a) (pages a) in
    let started := filter (λ p, processable p = true) pagesToProcess in
    let a1 := setIsProcessing true a in
    let a2 := foldl (λ acc page, setPages (markProcessing (id page)) acc) a1 started in
    match started with
    | [] => mkSys (batchDone a2) (flights s) (alerts s)
    | _ => launch (Batch (id <$> started)) (mkSys a2 (flights s) (alerts s))
    end.

(** [retryPageProcessing] up to its [await] (lines 128-141). *)
Definition retryPageProcessing (pageId : string) (s : Sys) : Sys :=
  match find (λ p, String.eqb (id p) pageId) (pages (st s)) with
  | None => s
  | Some pageToRetry =>
      if isProcessing (st s) then s
      else launch (Retry pageId)
             (onState (λ a, setPages (markRetrying pageId) (setIsProcessing true a)) s)
  end.

(** Removes one occurrence: one promise of the batch has settled. *)
Fixpoint settled (pid : string) (waiting : list string) : list string :=
  match waiting with
  | [] => []
  | x :: rest => if String.eqb x pid then rest else x :: settled pid rest
  end.

(** The OCR call for [pid] started by flight [k] settles with [o].
    [None] when flight [k] has no such call pending. *)
Definition ocrSettled (k : nat) (pid : string) (o : OcrOutcome) (s : Sys) : option Sys :=
  match flights s !! k with
  | Some (Batch waiting) =>
      if bool_decide (pid ∈ waiting) then
        let s1 := onState (setPages (settle pid o)) s in
        match settled pid waiting with
        | [] => Some (land k (onState batchDone s1))
        | rest => Some (reroute k (Batch rest) s1)
        end
      else None
  | Some (Retry p) =>
      if String.eqb p pid then
        Some (land k (onState (λ a, setIsProcessing false (setPages (settle pid o) a)) s))
      else None
  | _ => None
  end.

(** [handleToggleSelectPage] (lines 155-165). *)
Definition handleToggleSelectPage (pageId : string) (s : Sys) : Sys :=
  onState (setSelectedPages (λ prev,
    if bool_decide (pageId ∈ prev) then prev ∖ {[pageId]} else prev ∪ {[pageId]})) s.

(** [processablePageIds] and [allProcessableSelected] (lines 167-175). *)
Definition processablePageIds (a : AppState) : list string :=
  id <$> filter (λ p, processable p = true) (pages a).

Definition allProcessableSelected (a : AppState) : bool :=
  bool_decide (0 < length (processablePageIds a)) &&
  forallb (λ i, bool_decide (i ∈ selectedPages a)) (processablePageIds a).

(** [handleSelectAll] (lines 177-183). *)
Definition handleSelectAll (s : Sys) : Sys :=
  if allProcessableSelected (st s)
  then onState (setSelectedPages (λ _, ∅)) s
  else onState (setSelectedPages (λ _, list_to_set (processablePageIds (st s)))) s.

(** [combinedText] (lines 192-200).  [findIndex] is [-1] when nothing
    matches; a text is shown when it is present and not the empty string
    ([p.text] as a condition). *)
Fixpoint findIndex {A} (f : A → bool) (l : list A) : Z :=
  match l with
  | [] => (-1)%Z
  | x :: rest =>
      if f x then 0%Z
      else let r := findIndex f rest in
           if bool_decide (r = (-1)%Z) then (-1)%Z else (r + 1)%Z
  end.

Definition truthy (t : option string) : bool :=
  match t with
  | Some s => negb (String.eqb s "")
  | None => false
  end.

(** [`${x}`] for an optional string. *)
Definition interpolate (t : option string) : string :=
  match t with
  | Some s => s
  | None => "undefined"
  end.

(** [arr.join(sep)] *)
Fixpoint join (sep : string) (l : list string) : string :=
  match l with
  | [] => ""
  | [x] => x
  | x :: rest => x +:+ sep +:+ join sep rest
  end.

Definition newline : string := String "010"%char EmptyString.

Definition pageHeader (n : Z) : string :=
  "--- পৃষ্ঠা " +:+ pretty n +:+ " ---" +:+ newline +:+ newline.

Definition combinedText (a : AppState) : string :=
  join (newline +:+ newline)
    ((λ p,
        let originalIndex :=
          findIndex (λ originalPage, String.eqb (id originalPage) (id p)) (pages a) in
        pageHeader (originalIndex + 1) +:+ interpolate (text p))
     <$> filter (λ p, bool_decide (status p = COMPLETED) && truthy (text p) = true)
                (pages a)).

(** ** The component as an event system *)

Inductive Event :=
| Upload (pdfFile : option File)                        (* drop or file input *)
| PdfDecoded (k : nat) (o : DecodeOutcome)              (* pdf.js delivers *)
| ToggleSelect (pageId : string)
| SelectAll
| ProcessSelected
| RetryPage (pageId : string)
| OcrSettled (k : nat) (pid : string) (o : OcrOutcome). (* the OCR service delivers *)

(** What each event runs. *)
Definition handle (e : Event) (s : Sys) : option Sys :=
  match e with
  | Upload f => Some (handlePdfFile f s)
  | PdfDecoded k o =>
      match flights s !! k with
      | Some Decoding => Some (land k (pdfDecoded o s))
      | _ => None
      end
  | ToggleSelect pid => Some (handleToggleSelectPage pid s)
  | SelectAll => Some (handleSelectAll s)
  | ProcessSelected => Some (processSelectedPages s)
  | RetryPage pid => Some (retryPageProcessing pid s)
  | OcrSettled k pid o => ocrSettled k pid o s
  end.

Definition uuids (o : DecodeOutcome) : list string :=
  match o with
  | DecodeThrew => []
  | Decoded rs => uuid <$> omap (λ x, x) rs
  end.

(** When the view offers an event.
    - the upload zone is rendered when
      [!isProcessing && pages.length === 0 && !isPdfLoading] (line 238);
    - the page panel is rendered when [pages.length > 0] (line 269); in it
      the select-all box is disabled when
      [processablePageIds.length === 0 || isProcessing] (line 297), the
      process button when [selectedPages.size === 0 || isProcessing]
      (line 309), every page has its checkbox (lines 319-332), and the
      retry button exists on pages whose status is FAILED (lines 340-350);
    - outcomes come from the environment; [crypto.randomUUID()] gives
      distinct identifiers. *)
Definition offered (s : Sys) (e : Event) : bool :=
  let a := st s in
  match e with
  | Upload _ =>
      negb (isProcessing a) && bool_decide (length (pages a) = 0) && negb (isPdfLoading a)
  | PdfDecoded _ o => bool_decide (NoDup (uuids o))
  | ToggleSelect pid => bool_decide (pid ∈ id <$> pages a)
  | SelectAll =>
      bool_decide (0 < length (pages a)) &&
      negb (bool_decide (length (processablePageIds a) = 0) || isProcessing a)
  | ProcessSelected =>
      bool_decide (0 < length (pages a)) &&
      negb (bool_decide (size (selectedPages a) = 0) || isProcessing a)
  | RetryPage pid =>
      existsb (λ p, String.eqb (id p) pid && bool_decide (status p = FAILED)) (pages a)
  | OcrSettled _ _ _ => true
  end.

Definition step (s : Sys) (e : Event) : option Sys :=
  if offered s e then handle e s else None.

Fixpoint exec (s : Sys) (tr : list Event) : option Sys :=
  match tr with
  | [] => Some s
  | e :: rest =>
      match step s e with
      | Some s1 => exec s1 rest
      | None => None
      end
  end.

(** ** Auxiliary definitions used in the statements *)

Definition keeps_id (f : Page → Page) : Prop := ∀ p, id (f p) = id p.

(** What [settle] writes on the page it finds. *)
Definition settledPage (o : OcrOutcome) (p : Page) : Page :=
  match o with
  | Recognized t => with_text (Some t) (with_status COMPLETED p)
  | ThrownError m => with_error (Some m) (with_status FAILED p)
  | ThrownOther => with_error (Some "An unknown error occurred.") (with_status FAILED p)
  end.

(** The synchronous marking loop of [processSelectedPages] as one map. *)
Definition markAll (ids : list string) (ps : list Page) : list Page :=
  (λ p, if bool_decide (id p ∈ ids) then with_status PROCESSING p else p) <$> ps.

(** The status moves of section 4.1. *)
Inductive transition : PageStatus → PageStatus → Prop :=
| start_processing : transition PENDING PROCESSING
| complete : transition PROCESSING COMPLETED
| fail : transition PROCESSING FAILED
| reprocess : transition FAILED PROCESSING.

(** One page before and after an event: the same page, and its status
    either stays or makes one of the moves above. *)
Definition page_moves (p p' : Page) : Prop :=
  id p' = id p ∧ (status p' = status p ∨ transition (status p) (status p')).

Definition textOk (p : Page) : Prop := is_Some (text p) ↔ status p = COMPLETED.

(** The pages a flight has an OCR call pending for. *)
Definition awaited (f : Flight) : list string :=
  match f with
  | Decoding => []
  | Batch waiting => waiting
  | Retry pid => [pid]
  end.

(** At most one handler is suspended at a time, and the two flags say
    which. *)
Inductive Shape : list Flight → AppState → Prop :=
| shape_idle a :
    isProcessing a = false → isPdfLoading a = false → Shape [] a
| shape_decoding a :
    isProcessing a = false → isPdfLoading a = true → pages a = [] →
    Shape [Decoding] a
| shape_batch a waiting :
    isProcessing a = true → isPdfLoading a = false →
    waiting ≠ [] → NoDup waiting → Shape [Batch waiting] a
| shape_retry a pid :
    isProcessing a = true → isPdfLoading a = false → Shape [Retry pid] a.

(** The invariant of the states the component can be in. *)
Record Inv (s : Sys) : Prop := mkInv {
  inv_ids : NoDup (id <$> pages (st s));
  inv_text : Forall textOk (pages (st s));
  inv_shape : Shape (flights s) (st s);
  inv_processing :
    ∀ p, p ∈ pages (st s) →
         status p = PROCESSING ↔ id p ∈ concat (awaited <$> flights s)
}.

(** What an event does to the pages: each page makes a permitted move, or
    the list is the fresh result of a PDF decode. *)
Definition pages_move (e : Event) (before after : list Page) : Prop :=
  Forall2 page_moves before after ∨
  ((∃ k o, e = PdfDecoded k o) ∧ before = [] ∧
   Forall (λ p, status p = PENDING) after).

(** The pages [processSelectedPages] starts an OCR call for. *)
Definition startedPages (a : AppState) : list Page :=
  filter (λ p, processable p = true) (filter (λ p, id p ∈ selectedPages a) (pages a)).

(** The invariant of section 3, for one page. *)
Definition pageInvariant (p : Page) : Prop :=
  (is_Some (text p) ↔ status p = COMPLETED) ∧
  (is_Some (error p) → status p = FAILED).

(** The event ends a run of [processSelectedPages]: the handler got past
    its early return and reached its last two lines (124-125), either in
    the call itself, when there was no OCR call to wait for, or when the
    last pending OCR call of the batch settled. *)
Definition batch_completes (s : Sys) (e : Event) (s' : Sys) : Prop :=
  (e = ProcessSelected ∧ flights s' = flights s) ∨
  (∃ k pid o waiting,
      e = OcrSettled k pid o ∧ flights s !! k = Some (Batch waiting) ∧
      length (flights s') < length (flights s)).

(** ** Example runs *)

Definition pdf : File := mkFile "book.pdf" "application/pdf".

Definition onePage : DecodeOutcome := Decoded [Some (mkRendered "a" "data:a")].
Definition twoPages : DecodeOutcome :=
  Decoded [Some (mkRendered "a" "data:a"); Some (mkRendered "b" "data:b")].

(** One page fails in a batch, is selected again and dispatched again. *)
Definition redispatch : list Event :=
  [ Upload (Some pdf); PdfDecoded 0 onePage;
    ToggleSelect "a"; ProcessSelected; OcrSettled 0 "a" (ThrownError "quota");
    ToggleSelect "a"; ProcessSelected ].

(** Two pages, both selected and dispatched; the second call fails. *)
Definition batchOfTwo : list Event :=
  [ Upload (Some pdf); PdfDecoded 0 twoPages;
    ToggleSelect "a"; ToggleSelect "b"; ProcessSelected;
    OcrSettled 0 "b" (ThrownError "quota") ].

(** Two pages that both failed in a batch. *)
Definition bothFailed : list Event :=
  [ Upload (Some pdf); PdfDecoded 0 twoPages;
    SelectAll; ProcessSelected;
    OcrSettled 0 "a" (ThrownError "quota"); OcrSettled 0 "b" ThrownOther ].

(** One page, processed with success. *)
Definition oneDone (t : string) : list Event :=
  [ Upload (Some pdf); PdfDecoded 0 onePage;
    ToggleSelect "a"; ProcessSelected; OcrSettled 0 "a" (Recognized t) ].

(** The state a run from [init] ends in ([init] itself when the run is not
    possible). *)
Definition stateAfter (tr : list Event) : Sys := default init (exec init tr).

(** The page is one [processSelectedPages] dispatches: selected, and
    PENDING or FAILED. *)
Definition dispatched (a : AppState) (p : Page) : bool :=
  bool_decide (id p ∈ selectedPages a) && processable p.

(** The OCR calls of flight 0 settle in the given order, each with the
    outcome [ocr] has for its page. *)
Definition settlements (ocr : string → OcrOutcome) (order : list string) : list Event :=
  (λ pid, OcrSettled 0 pid (ocr pid)) <$> order.

(** ** Retry against the words of section 4.3 *)

(** [{ ...p, error: undefined }] on the page [pid]. *)
Definition clearError (pid : string) : list Page → list Page :=
  updatePage pid (with_error None).

(** The pages after one operation on one page: the handler of [e] runs,
    and if it started an OCR call for [pid] (as the newest flight), that
    call settles with [o]. *)
Definition finalPages (e : Event) (pid : string) (o : OcrOutcome) (s : Sys) : list Page :=
  match handle e s with
  | Some s1 =>
      match ocrSettled (length (flights s)) pid o s1 with
      | Some s2 => pages (st s2)
      | None => pages (st s1)
      end
  | None => pages (st s)
  end.

(** What the code does: [retryPageProcessing]. *)
Definition retry_impl (pid : string) (o : OcrOutcome) (s : Sys) : list Page :=
  finalPages (RetryPage pid) pid o s.

(** Section 4.3 in its own words: "re-run the single-page processing from
    4.2 for that one page, clearing any previous error first", that is,
    batch dispatch with the selection holding just [pid], from the state
    in which the error of [pid] has been cleared. *)
Definition retry_per_spec (pid : string) (o : OcrOutcome) (s : Sys) : list Page :=
  finalPages ProcessSelected pid o
    (onState (λ a, setSelectedPages (λ _, {[pid]}) (setPages (clearError pid) a)) s).

(** ** The combined text, by position *)

(** [p.status === PageStatus.COMPLETED && p.text] *)
Definition shown (p : Page) : bool :=
  bool_decide (status p = COMPLETED) && truthy (text p).

(** Every page with its 0-based position in the list. *)
Definition numbered (ps : list Page) : list (nat * Page) := imap (λ i p, (i, p)) ps.

(** One entry: the header with the 1-based position, then the text. *)
Definition entry (ip : nat * Page) : string :=
  pageHeader (Z.of_nat ip.1 + 1) +:+ interpolate (text ip.2).

Definition separator : string := newline +:+ newline.

(** The combined text as the claim words it: an entry for exactly the
    COMPLETED pages, in page order. *)
Definition combinedText_of_completed (a : AppState) : string :=
  join separator
    (entry <$> filter (λ ip, status ip.2 = COMPLETED) (numbered (pages a))).

(** The same with the test the code has: COMPLETED and a non-empty text. *)
Definition combinedText_of_shown (a : AppState) : string :=
  join separator
    (entry <$> filter (λ ip, shown ip.2 = true) (numbered (pages a))).

(** Select-all as the claim words it, for comparison with
    [handleSelectAll]. *)
Definition selectsAllThenNone (s : Sys) : Prop :=
  selectedPages (st (handleSelectAll s)) = list_to_set (processablePageIds (st s)) ∧
  selectedPages (st (handleSelectAll (handleSelectAll s))) = ∅.

(** ** The rest of the component *)

(** [completedPages] (line 185). *)
Definition completedPages (a : AppState) : list Page :=
  filter (λ p, status p = COMPLETED) (pages a).

(** [allPagesDone] (lines 187-190). *)
Definition allPagesDone (a : AppState) : bool :=
  if bool_decide (length (pages a) = 0) then false
  else forallb (λ p, bool_decide (status p = COMPLETED) || bool_decide (status p = FAILED))
               (pages a).

(** [doneCount] (line 274; the same as [finished], line 216) and
    [failedCount] (line 277). *)
Definition doneCount (a : AppState) : nat :=
  length (filter (λ p, status p = COMPLETED ∨ status p = FAILED) (pages a)).

Definition failedCount (a : AppState) : nat :=
  length (filter (λ p, status p = FAILED) (pages a)).

(** The heading of the page panel (lines 272-282). *)
Definition panelTitle (a : AppState) : string :=
  if isProcessing a then "Processing Pages..."
  else if allPagesDone a then
    if bool_decide (0 < failedCount a)
    then "Processing Complete (" +:+ pretty (failedCount a) +:+ " failed)"
    else "Processing Complete"
  else "Progress: " +:+ pretty (doneCount a) +:+ "/" +:+ pretty (length (pages a))
       +:+ " pages done".

(** [copyToClipboard] (lines 202-203), up to the call of
    [navigator.clipboard.writeText]: the text handed to the clipboard, or
    [None] when the handler returns at once. *)
Definition copyToClipboard (a : AppState) : option string :=
  if String.eqb (combinedText a) "" then None else Some (combinedText a).

(** ** Further invariants and notions for the statements below *)

(** What of a page no handler writes. *)
Definition skeleton (p : Page) : string * File * string := (id p, file p, previewUrl p).

(** The selection and the pending OCR calls are about pages of the list. *)
Record Anchored (s : Sys) : Prop := mkAnchored {
  anchored_selection : ∀ i, i ∈ selectedPages (st s) → i ∈ id <$> pages (st s);
  anchored_awaited :
    ∀ i, i ∈ concat (awaited <$> flights s) → i ∈ id <$> pages (st s)
}.

(** The OCR call threw. *)
Definition threw (o : OcrOutcome) : bool :=
  match o with
  | Recognized _ => false
  | _ => true
  end.

(** The whole list is rendered: no page of the PDF was skipped. *)
Definition allRendered (rs : list (option Rendered)) : Prop := Forall is_Some rs.
(** ** Facts about the updaters *)

Section Updaters.
Implicit Types (p : Page) (ps : list Page) (pid : string) (f : Page → Page).

Lemma updatePage_ids pid f ps :
  keeps_id f → id <$> updatePage pid f ps = id <$> ps.
Proof.
  intros Hf. unfold updatePage. rewrite <- list_fmap_compose.
  apply list_fmap_ext. intros _ p _. simpl.
  destruct (String.eqb (id p) pid); [apply Hf | reflexivity].
Qed.

Lemma updatePage_lookup pid f ps i :
  updatePage pid f ps !! i =
  (λ p, if String.eqb (id p) pid then f p else p) <$> ps !! i.
Proof. unfold updatePage. apply list_lookup_fmap. Qed.

Lemma updatePage_absent pid f ps :
  pid ∉ id <$> ps → updatePage pid f ps = ps.
Proof.
  intros Hn. unfold updatePage.
  rewrite <- (list_fmap_id ps) at 2. apply list_fmap_ext.
  intros i p Hp. simpl.
  destruct (String.eqb_spec (id p) pid) as [E|]; [|reflexivity].
  exfalso. apply Hn. rewrite <- E. apply list_elem_of_fmap.
  exists p. split; [reflexivity|]. eapply list_elem_of_lookup_2; eauto.
Qed.

(** With distinct identifiers, the map rewrites one position. *)
Lemma updatePage_insert pid f ps i p :
  NoDup (id <$> ps) → ps !! i = Some p → id p = pid →
  updatePage pid f ps = <[i := f p]> ps.
Proof.
  intros Hnd Hi Hid. apply list_eq. intros j.
  rewrite updatePage_lookup.
  destruct (decide (i = j)) as [->|Hne].
  - rewrite list_lookup_insert_eq by (eapply lookup_lt_Some; eauto).
    rewrite Hi. simpl. rewrite Hid, String.eqb_refl. reflexivity.
  - rewrite list_lookup_insert_ne by done.
    destruct (ps !! j) as [q|] eqn:Hj; [|reflexivity]. simpl.
    destruct (String.eqb_spec (id q) pid) as [E|]; [|reflexivity].
    exfalso. apply Hne.
    eapply (NoDup_lookup (id <$> ps)); eauto.
    + rewrite list_lookup_fmap, Hi. reflexivity.
    + rewrite list_lookup_fmap, Hj. simpl. congruence.
Qed.

Lemma settle_ids pid o ps : id <$> settle pid o ps = id <$> ps.
Proof. destruct o; apply updatePage_ids; intros p; reflexivity. Qed.

Lemma markRetrying_ids pid ps : id <$> markRetrying pid ps = id <$> ps.
Proof. apply updatePage_ids; intros p; reflexivity. Qed.

Lemma settle_updatePage pid o ps :
  settle pid o ps = updatePage pid (settledPage o) ps.
Proof. destruct o; reflexivity. Qed.

Lemma settledPage_keeps_id o : keeps_id (settledPage o).
Proof. intros p. destruct o; reflexivity. Qed.

Lemma markAll_cons_pointwise (q : string) (ids : list string) p :
  (let p1 := if String.eqb (id p) q then with_status PROCESSING p else p in
   if bool_decide (id p1 ∈ ids) then with_status PROCESSING p1 else p1)
  = if bool_decide (id p ∈ q :: ids) then with_status PROCESSING p else p.
Proof.
  cbv zeta. destruct (String.eqb_spec (id p) q) as [E|Hne].
  - rewrite (bool_decide_eq_true_2 (id p ∈ q :: ids))
      by (rewrite E; apply list_elem_of_here).
    destruct (bool_decide _); reflexivity.
  - destruct (decide (id p ∈ ids)) as [Hin|Hin].
    + rewrite !bool_decide_eq_true_2; [reflexivity| |done].
      apply list_elem_of_further. exact Hin.
    + rewrite !bool_decide_eq_false_2; [reflexivity| |done].
      intros [?|?]%elem_of_cons; [congruence|contradiction].
Qed.

Lemma foldl_markProcessing (started : list Page) (a : AppState) :
  foldl (λ acc page, setPages (markProcessing (id page)) acc) a started
  = setPages (markAll (id <$> started)) a.
Proof.
  revert a. induction started as [|q started IH]; intros a.
  - destruct a. unfold setPages, markAll. simpl. f_equal.
    rewrite <- (list_fmap_id pages0) at 1. apply list_fmap_ext.
    intros i p _. reflexivity.
  - rewrite fmap_cons. cbn [foldl]. rewrite IH. destruct a.
    unfold setPages. cbn [pages selectedPages isProcessing isPdfLoading copySuccess].
    f_equal. unfold markAll, markProcessing, updatePage.
    rewrite <- list_fmap_compose. apply list_fmap_ext.
    intros i p _. apply markAll_cons_pointwise.
Qed.

End Updaters.

(** ** The invariant holds in every state the component reaches *)

Section Invariant.
Implicit Types (s : Sys) (e : Event) (p q : Page) (ps : list Page).

Lemma Inv_init : Inv init.
Proof.
  split; simpl.
  - constructor.
  - constructor.
  - constructor; reflexivity.
  - intros p Hp. inversion Hp.
Qed.

Lemma id_inj ps p q :
  NoDup (id <$> ps) → p ∈ ps → q ∈ ps → id p = id q → p = q.
Proof.
  intros Hnd [i Hi]%list_elem_of_lookup [j Hj]%list_elem_of_lookup E.
  assert (i = j) as ->.
  { eapply (NoDup_lookup (id <$> ps)); eauto.
    - rewrite list_lookup_fmap, Hi. reflexivity.
    - rewrite list_lookup_fmap, Hj. simpl. congruence. }
  congruence.
Qed.

Lemma page_moves_refl p : page_moves p p.
Proof. split; [reflexivity | left; reflexivity]. Qed.

Lemma Forall2_page_moves_refl ps : Forall2 page_moves ps ps.
Proof. apply Forall_Forall2_diag, Forall_forall. intros; apply page_moves_refl. Qed.

Lemma Forall2_fmap_self (R : Page → Page → Prop) (g : Page → Page) ps :
  (∀ p, p ∈ ps → R p (g p)) → Forall2 R ps (g <$> ps).
Proof.
  intros H. apply Forall2_fmap_r, Forall_Forall2_diag, Forall_forall. exact H.
Qed.

Lemma newPages_gen (g : nat → Rendered → Page) (P : Page → Prop)
    (rs : list (option Rendered)) :
  (∀ i r, P (g i r)) →
  Forall P (omap (λ x : option Page, x) (imap (λ i (r : option Rendered), g i <$> r) rs)).
Proof.
  revert g. induction rs as [|[r|] rs IH]; intros g Hg; simpl.
  - constructor.
  - constructor; [apply Hg|]. apply (IH (λ i, g (S i))). intros; apply Hg.
  - apply (IH (λ i, g (S i))). intros; apply Hg.
Qed.

Lemma newPages_ids_gen (g : nat → Rendered → Page) (rs : list (option Rendered)) :
  (∀ i r, id (g i r) = uuid r) →
  id <$> omap (λ x : option Page, x) (imap (λ i (r : option Rendered), g i <$> r) rs)
  = uuid <$> omap (λ x, x) rs.
Proof.
  revert g. induction rs as [|[r|] rs IH]; intros g Hg; simpl.
  - reflexivity.
  - rewrite Hg. f_equal. apply (IH (λ i, g (S i))). intros; apply Hg.
  - apply (IH (λ i, g (S i))). intros; apply Hg.
Qed.

Lemma newPages_ids rs : id <$> newPages rs = uuid <$> omap (λ x, x) rs.
Proof. apply newPages_ids_gen. reflexivity. Qed.

Lemma newPages_fresh rs :
  Forall (λ p, status p = PENDING ∧ text p = None ∧ error p = None) (newPages rs).
Proof. apply newPages_gen. intros; repeat split. Qed.

(** [settled] on a list without repetition. *)
Lemma settled_elem_of pid (w : list string) x :
  NoDup w → x ∈ settled pid w ↔ x ∈ w ∧ x ≠ pid.
Proof.
  induction w as [|y w IH]; intros Hnd; simpl.
  - split; [inversion 1 | intros [H _]; inversion H].
  - apply NoDup_cons in Hnd as [Hy Hnd].
    destruct (String.eqb_spec y pid) as [->|Hne].
    + rewrite elem_of_cons. split.
      * intros Hx. split; [by right|]. intros ->. contradiction.
      * intros [[->|Hx] Hn]; [contradiction | exact Hx].
    + rewrite !elem_of_cons, IH by exact Hnd. split.
      * intros [->|[Hx Hn]]; [split; [by left | exact Hne] | split; [by right | exact Hn]].
      * intros [[->|Hx] Hn]; [by left | right; by split].
Qed.

Lemma settled_NoDup pid (w : list string) : NoDup w → NoDup (settled pid w).
Proof.
  induction w as [|y w IH]; intros Hnd; simpl; [constructor|].
  apply NoDup_cons in Hnd as [Hy Hnd].
  destruct (String.eqb_spec y pid) as [->|Hne]; [exact Hnd|].
  apply NoDup_cons. split; [|by apply IH].
  rewrite settled_elem_of by exact Hnd. intros [? _]. contradiction.
Qed.

Lemma Inv_selection s f : Inv s → Inv (onState (setSelectedPages f) s).
Proof.
  intros [H1 H2 H3 H4]. split; simpl; try assumption.
  destruct s as [a fl al]; simpl in *.
  inversion H3; subst; constructor; assumption.
Qed.

Lemma Inv_alert s msg : Inv s → Inv (alert msg s).
Proof. intros [H1 H2 H3 H4]. split; assumption. Qed.

(** Selected pages that pass the status test, seen from the page list. *)
Lemma started_processable ps (P : Page → Prop) `{∀ x, Decision (P x)} p :
  NoDup (id <$> ps) → p ∈ ps →
  id p ∈ id <$> filter (λ x, processable x = true) (filter P ps) →
  processable p = true.
Proof.
  intros Hnd Hp (q & E & Hq)%list_elem_of_fmap.
  apply list_elem_of_filter in Hq as [Hq1 Hq2].
  apply list_elem_of_filter in Hq2 as [_ Hq2].
  rewrite (id_inj ps p q); auto.
Qed.

Lemma started_NoDup ps (P : Page → Prop) `{∀ x, Decision (P x)} :
  NoDup (id <$> ps) →
  NoDup (id <$> filter (λ x, processable x = true) (filter P ps)).
Proof.
  intros Hnd. apply NoDup_fmap_2_strong.
  - intros x y Hx Hy. apply (id_inj ps); auto.
    + apply list_elem_of_filter in Hx as [_ Hx].
      apply list_elem_of_filter in Hx as [_ Hx]. exact Hx.
    + apply list_elem_of_filter in Hy as [_ Hy].
      apply list_elem_of_filter in Hy as [_ Hy]. exact Hy.
  - apply NoDup_filter, NoDup_filter. eapply NoDup_fmap_1. exact Hnd.
Qed.

Lemma processable_cases p :
  processable p = true → status p = PENDING ∨ status p = FAILED.
Proof.
  unfold processable. intros [H|H]%orb_true_iff; apply bool_decide_eq_true_1 in H; auto.
Qed.

Lemma textOk_not_completed p :
  textOk p → status p ≠ COMPLETED → text p = None.
Proof.
  intros [H _] Hn. destruct (text p) eqn:E; [|reflexivity].
  exfalso. apply Hn, H. eauto.
Qed.

(** *** One lemma per event *)

Lemma upload_preserves s f :
  Inv s → offered s (Upload f) = true →
  Inv (handlePdfFile f s) ∧
  pages (st s) = [] ∧ pages (st (handlePdfFile f s)) = [].
Proof.
  intros HI Hoff. destruct s as [a fl al]. simpl in Hoff.
  apply andb_true_iff in Hoff as [Hoff Hl].
  apply andb_true_iff in Hoff as [Hp Hn].
  apply negb_true_iff in Hp, Hl. apply bool_decide_eq_true_1 in Hn.
  apply nil_length_inv in Hn.
  assert (Hidle : fl = []).
  { destruct HI as [_ _ Hs _]. simpl in Hs. inversion Hs; subst; congruence. }
  subst fl. unfold handlePdfFile.
  destruct f as [f|]; [destruct (String.eqb (type f) "application/pdf")|].
  - split; [|split; [exact Hn | reflexivity]].
    split; simpl.
    + constructor.
    + constructor.
    + constructor; simpl; auto.
    + intros p Hp'. inversion Hp'.
  - split; [apply Inv_alert, HI | split; exact Hn].
  - split; [apply Inv_alert, HI | split; exact Hn].
Qed.

Lemma decoded_preserves s k o s' :
  Inv s → offered s (PdfDecoded k o) = true →
  handle (PdfDecoded k o) s = Some s' →
  Inv s' ∧ pages (st s) = [] ∧ Forall (λ p, status p = PENDING) (pages (st s')).
Proof.
  intros HI Hoff Hh. destruct s as [a fl al]. simpl in Hoff, Hh.
  apply bool_decide_eq_true_1 in Hoff.
  destruct (fl !! k) as [[| |]|] eqn:Hk; try discriminate.
  injection Hh as <-.
  destruct HI as [H1 H2 Hs H4]. simpl in *.
  inversion Hs; subst; try (destruct k; simpl in Hk; discriminate).
  destruct k; [|destruct k; discriminate]. clear Hk.
  match goal with H : pages a = [] |- _ => rename H into Hnil end.
  split; [|split; [exact Hnil|]].
  - destruct o as [|rs]; simpl.
    + split; simpl; try assumption.
      * constructor; simpl; auto.
    + split; simpl.
      * rewrite newPages_ids. exact Hoff.
      * eapply Forall_impl; [apply newPages_fresh|].
        intros p (Hst & Ht & _). unfold textOk. rewrite Hst, Ht.
        split; [intros [? ?]; discriminate | discriminate].
      * constructor; simpl; auto.
      * intros p Hp.
        pose proof (newPages_fresh rs) as HF.
        rewrite Forall_forall in HF. destruct (HF p Hp) as (Hst & _).
        rewrite Hst. split; [discriminate | inversion 1].
  - destruct o as [|rs]; simpl.
    + rewrite Hnil. constructor.
    + eapply Forall_impl; [apply newPages_fresh|]. intros p (Hst & _). exact Hst.
Qed.

Lemma markAll_nil ps : markAll [] ps = ps.
Proof.
  unfold markAll. rewrite <- (list_fmap_id ps) at 2.
  apply list_fmap_ext. intros i p _. reflexivity.
Qed.

Lemma markAll_ids ids ps : id <$> markAll ids ps = id <$> ps.
Proof.
  unfold markAll. rewrite <- list_fmap_compose. apply list_fmap_ext.
  intros i p _. simpl. destruct (bool_decide _); reflexivity.
Qed.

(** [processSelectedPages] with the marking loop folded into one map. *)
Lemma processSelectedPages_unfold s :
  size (selectedPages (st s)) ≠ 0 →
  processSelectedPages s =
  let a := st s in
  let a2 := setPages (markAll (id <$> startedPages a)) (setIsProcessing true a) in
  match startedPages a with
  | [] => mkSys (batchDone a2) (flights s) (alerts s)
  | _ => launch (Batch (id <$> startedPages a)) (mkSys a2 (flights s) (alerts s))
  end.
Proof.
  intros Hsz. unfold processSelectedPages.
  rewrite bool_decide_eq_false_2 by exact Hsz.
  cbv zeta. rewrite foldl_markProcessing. reflexivity.
Qed.

Lemma offered_process s :
  Inv s → offered s ProcessSelected = true →
  size (selectedPages (st s)) ≠ 0 ∧ isProcessing (st s) = false ∧ flights s = [].
Proof.
  intros HI Hoff. destruct s as [a fl al]. simpl in *.
  apply andb_true_iff in Hoff as [Hlen Hoff].
  apply negb_true_iff, orb_false_iff in Hoff as [Hsz Hp].
  apply bool_decide_eq_false_1 in Hsz. apply bool_decide_eq_true_1 in Hlen.
  repeat split; try assumption.
  destruct HI as [_ _ Hs _]. simpl in Hs.
  inversion Hs; subst; try congruence.
  match goal with H : pages a = [] |- _ => rewrite H in Hlen end.
  simpl in Hlen. lia.
Qed.

Lemma process_preserves s :
  Inv s → offered s ProcessSelected = true →
  Inv (processSelectedPages s) ∧
  Forall2 page_moves (pages (st s)) (pages (st (processSelectedPages s))).
Proof.
  intros HI Hoff.
  destruct (offered_process s HI Hoff) as (Hsz & Hp & Hfl).
  rewrite processSelectedPages_unfold by exact Hsz. cbv zeta.
  destruct HI as [Hids Htext Hs Hproc].
  destruct s as [a fl al]. simpl in *. subst fl.
  assert (Hnp : ∀ p, p ∈ pages a → status p ≠ PROCESSING).
  { intros p Hin Hst. apply (Hproc p Hin) in Hst. inversion Hst. }
  assert (Hstart : ∀ p, p ∈ pages a → id p ∈ id <$> startedPages a →
                        status p = PENDING ∨ status p = FAILED).
  { intros p Hin Hid. apply processable_cases.
    eapply started_processable; eauto. }
  assert (Hmoves : Forall2 page_moves (pages a)
                     (markAll (id <$> startedPages a) (pages a))).
  { apply Forall2_fmap_self. intros p Hin.
    destruct (decide (id p ∈ id <$> startedPages a)) as [Hid|Hid].
    - rewrite bool_decide_eq_true_2 by exact Hid.
      split; [reflexivity|]. right. simpl.
      destruct (Hstart p Hin Hid) as [->| ->]; constructor.
    - rewrite bool_decide_eq_false_2 by exact Hid. apply page_moves_refl. }
  assert (Htext' : Forall textOk (markAll (id <$> startedPages a) (pages a))).
  { unfold markAll. apply Forall_fmap, Forall_forall. intros p Hin. simpl.
    rewrite Forall_forall in Htext. specialize (Htext p Hin).
    destruct (decide (id p ∈ id <$> startedPages a)) as [Hid|Hid].
    - rewrite bool_decide_eq_true_2 by exact Hid.
      unfold textOk. simpl.
      rewrite (textOk_not_completed p Htext)
        by (destruct (Hstart p Hin Hid) as [->| ->]; discriminate).
      split; [intros [? ?]; discriminate | discriminate].
    - rewrite bool_decide_eq_false_2 by exact Hid. exact Htext. }
  destruct (startedPages a) as [|q started] eqn:Hst.
  - split; [|simpl; exact Hmoves].
    split; simpl.
    + rewrite markAll_ids. exact Hids.
    + exact Htext'.
    + constructor; simpl; [reflexivity|]. inversion Hs; assumption.
    + intros p Hin. rewrite markAll_nil in Hin. split; [|inversion 1].
      intros Hc. exfalso. eapply Hnp; eauto.
  - split; [|simpl; exact Hmoves].
    split; simpl.
    + rewrite markAll_ids. exact Hids.
    + exact Htext'.
    + constructor; simpl; [reflexivity| |discriminate|].
      * inversion Hs; assumption.
      * rewrite <- fmap_cons, <- Hst. apply started_NoDup. exact Hids.
    + intros p' Hin'. rewrite app_nil_r.
      unfold markAll in Hin'. apply list_elem_of_fmap in Hin' as (p & -> & Hin).
      rewrite <- !fmap_cons.
      destruct (decide (id p ∈ id <$> q :: started)) as [Hid|Hid].
      * rewrite bool_decide_eq_true_2 by exact Hid. simpl. split; auto.
      * rewrite bool_decide_eq_false_2 by exact Hid. split; [|contradiction].
        intros Hc. exfalso. eapply Hnp; eauto.
Qed.

Lemma updatePage_preserves pid (f : Page → Page) ps :
  Forall textOk ps →
  (∀ p, p ∈ ps → id p = pid → textOk (f p) ∧ page_moves p (f p)) →
  Forall textOk (updatePage pid f ps) ∧
  Forall2 page_moves ps (updatePage pid f ps).
Proof.
  intros Htext Hf. rewrite Forall_forall in Htext. split.
  - apply Forall_fmap, Forall_forall. intros p Hin. simpl.
    destruct (String.eqb_spec (id p) pid) as [E|_]; [apply Hf; auto | auto].
  - apply Forall2_fmap_self. intros p Hin.
    destruct (String.eqb_spec (id p) pid) as [E|_];
      [apply Hf; auto | apply page_moves_refl].
Qed.

Lemma updatePage_elem_of pid (f : Page → Page) ps p' :
  p' ∈ updatePage pid f ps →
  ∃ p, p ∈ ps ∧ ((id p = pid ∧ p' = f p) ∨ (id p ≠ pid ∧ p' = p)).
Proof.
  intros (p & -> & Hin)%list_elem_of_fmap. exists p. split; [exact Hin|].
  destruct (String.eqb_spec (id p) pid); auto.
Qed.

Lemma offered_retry s pid :
  offered s (RetryPage pid) = true →
  ∃ p, p ∈ pages (st s) ∧ id p = pid ∧ status p = FAILED.
Proof.
  simpl. intros (p & Hin & H)%existsb_exists.
  apply andb_true_iff in H as [E Hst].
  apply String.eqb_eq in E. apply bool_decide_eq_true_1 in Hst.
  exists p. rewrite list_elem_of_In. auto.
Qed.

Lemma find_page_Some ps pid p :
  p ∈ ps → id p = pid →
  ∃ q, find (λ x, String.eqb (id x) pid) ps = Some q.
Proof.
  intros Hin E. destruct (find _ ps) as [q|] eqn:Hf; [eauto|].
  exfalso. apply list_elem_of_In in Hin.
  pose proof (find_none _ _ Hf p Hin) as Hn. simpl in Hn.
  rewrite E, String.eqb_refl in Hn. discriminate.
Qed.

Lemma find_page_None ps pid :
  pid ∉ id <$> ps → find (λ x, String.eqb (id x) pid) ps = None.
Proof.
  intros Hn. destruct (find _ ps) as [q|] eqn:Hf; [|reflexivity].
  apply find_some in Hf as [Hin E]. apply String.eqb_eq in E.
  exfalso. apply Hn. rewrite <- E. apply list_elem_of_fmap_2, list_elem_of_In, Hin.
Qed.

Lemma retry_preserves s pid :
  Inv s → offered s (RetryPage pid) = true →
  Inv (retryPageProcessing pid s) ∧
  Forall2 page_moves (pages (st s)) (pages (st (retryPageProcessing pid s))).
Proof.
  intros HI Hoff.
  destruct (offered_retry s pid Hoff) as (p0 & Hin0 & Hid0 & Hst0).
  unfold retryPageProcessing.
  destruct (find_page_Some _ _ _ Hin0 Hid0) as [q ->].
  destruct (isProcessing (st s)) eqn:Hp.
  { split; [exact HI | apply Forall2_page_moves_refl]. }
  destruct HI as [Hids Htext Hs Hproc].
  destruct s as [a fl al]. simpl in *.
  assert (fl = []) as ->.
  { inversion Hs; subst; try congruence.
    match goal with H : pages a = [] |- _ => rewrite H in Hin0 end.
    inversion Hin0. }
  assert (Hone : ∀ p, p ∈ pages a → id p = pid → p = p0).
  { intros p Hin E. apply (id_inj (pages a)); auto. congruence. }
  destruct (updatePage_preserves pid
              (λ p, with_error None (with_status PROCESSING p)) (pages a) Htext)
    as [Htext' Hmoves].
  { intros p Hin E. rewrite (Hone p Hin E). split.
    - unfold textOk. simpl. rewrite Forall_forall in Htext.
      rewrite (textOk_not_completed p0) by (auto; rewrite Hst0; discriminate).
      split; [intros [? ?]; discriminate | discriminate].
    - split; [reflexivity|]. right. simpl. rewrite Hst0. constructor. }
  split; [|exact Hmoves].
  split; simpl.
  - rewrite markRetrying_ids. exact Hids.
  - exact Htext'.
  - constructor; simpl; [reflexivity|]. inversion Hs; assumption.
  - intros p' Hin'.
    apply updatePage_elem_of in Hin' as (p & Hin & [[E ->]|[Hne ->]]); simpl.
    + rewrite E. split; [intros _; apply list_elem_of_here | reflexivity].
    + split.
      * intros Hc. apply (Hproc p Hin) in Hc. inversion Hc.
      * intros Hc%list_elem_of_singleton. contradiction.
Qed.

Lemma settledPage_ok o p :
  textOk p → status p = PROCESSING →
  textOk (settledPage o p) ∧ page_moves p (settledPage o p) ∧
  status (settledPage o p) ≠ PROCESSING.
Proof.
  intros Ht Hst.
  pose proof (textOk_not_completed p Ht) as Hnone.
  rewrite Hst in Hnone. specialize (Hnone ltac:(discriminate)).
  destruct o; simpl; (split; [|split]); unfold textOk, page_moves; simpl;
    rewrite ?Hst, ?Hnone; try discriminate.
  - split; [reflexivity | eauto].
  - split; [reflexivity | right; constructor].
  - split; [intros [? ?]; discriminate | discriminate].
  - split; [reflexivity | right; constructor].
  - split; [intros [? ?]; discriminate | discriminate].
  - split; [reflexivity | right; constructor].
Qed.

Lemma settled_preserves s k pid o s' :
  Inv s → ocrSettled k pid o s = Some s' →
  Inv s' ∧ Forall2 page_moves (pages (st s)) (pages (st s')).
Proof.
  intros [Hids Htext Hs Hproc] Hh.
  destruct s as [a fl al]. unfold ocrSettled in Hh. simpl in *.
  assert (Hupd : ∀ w, fl = [w] → pid ∈ awaited w →
            Forall textOk (settle pid o (pages a)) ∧
            Forall2 page_moves (pages a) (settle pid o (pages a)) ∧
            (∀ p', p' ∈ settle pid o (pages a) → id p' = pid →
                   status p' ≠ PROCESSING) ∧
            (∀ p', p' ∈ settle pid o (pages a) → id p' ≠ pid →
                   status p' = PROCESSING ↔ id p' ∈ awaited w)).
  { intros w -> Hw. simpl in Hproc. rewrite app_nil_r in Hproc.
    rewrite settle_updatePage.
    assert (Hpid : ∀ p, p ∈ pages a → id p = pid → status p = PROCESSING).
    { intros p Hin E. apply Hproc; [exact Hin | rewrite E; exact Hw]. }
    rewrite Forall_forall in Htext.
    destruct (updatePage_preserves pid (settledPage o) (pages a)) as [H1 H2].
    { apply Forall_forall, Htext. }
    { intros p Hin E.
      destruct (settledPage_ok o p (Htext p Hin) (Hpid p Hin E)) as (?&?&?). auto. }
    repeat split; try assumption.
    - intros p' Hin' E'.
      apply updatePage_elem_of in Hin' as (p & Hin & [[E ->]|[Hne ->]]).
      + apply (settledPage_ok o p (Htext p Hin) (Hpid p Hin E)).
      + contradiction.
    - apply updatePage_elem_of in H as (p & Hin & [[E ->]|[Hne ->]]).
      + rewrite settledPage_keeps_id in H0. contradiction.
      + intros Hc. apply Hproc; assumption.
    - apply updatePage_elem_of in H as (p & Hin & [[E ->]|[Hne ->]]).
      + rewrite settledPage_keeps_id in H0. contradiction.
      + intros Hc. apply Hproc; assumption. }
  destruct (fl !! k) as [[|w|p]|] eqn:Hk; try discriminate.
  - (* a batch *)
    inversion Hs; subst; try (destruct k; simpl in Hk; discriminate).
    destruct k; [|destruct k; discriminate]. simpl in Hk.
    injection Hk as ->.
    destruct (bool_decide (pid ∈ w)) eqn:Hw; [|discriminate].
    apply bool_decide_eq_true_1 in Hw.
    destruct (Hupd (Batch w) eq_refl Hw) as (Ht' & Hm & Hsame & Hother).
    simpl in Hother.
    destruct (settled pid w) as [|x rest] eqn:Hrest; injection Hh as <-; simpl.
    + split; [|exact Hm]. split; simpl.
      * rewrite settle_ids. exact Hids.
      * exact Ht'.
      * constructor; simpl; auto.
      * intros p' Hin'. split; [|inversion 1]. intros Hc. exfalso.
        destruct (decide (id p' = pid)) as [E|Hne].
        { eapply Hsame; eauto. }
        apply (Hother p' Hin' Hne) in Hc.
        assert (Hx : id p' ∈ settled pid w)
          by (apply settled_elem_of; auto).
        rewrite Hrest in Hx. inversion Hx.
    + split; [|exact Hm]. split; simpl.
      * rewrite settle_ids. exact Hids.
      * exact Ht'.
      * apply shape_batch; simpl; auto.
        rewrite <- Hrest. apply settled_NoDup. assumption.
      * intros p' Hin'. rewrite app_nil_r, <- Hrest.
        rewrite settled_elem_of by assumption.
        destruct (decide (id p' = pid)) as [E|Hne].
        { split; [intros Hc; exfalso; eapply Hsame; eauto | intros [_ ?]; contradiction]. }
        rewrite (Hother p' Hin' Hne). tauto.
  - (* a retry *)
    inversion Hs; subst; try (destruct k; simpl in Hk; discriminate).
    destruct k; [|destruct k; discriminate]. simpl in Hk.
    injection Hk as ->.
    destruct (String.eqb p pid) eqn:E; [|discriminate].
    apply String.eqb_eq in E. subst p.
    injection Hh as <-.
    destruct (Hupd (Retry pid) eq_refl) as (Ht' & Hm & Hsame & Hother).
    { apply list_elem_of_here. }
    simpl in Hother. split; [|exact Hm]. split; simpl.
    + rewrite settle_ids. exact Hids.
    + exact Ht'.
    + constructor; simpl; auto.
    + intros p' Hin'. split; [|inversion 1]. intros Hc. exfalso.
      destruct (decide (id p' = pid)) as [E|Hne].
      { eapply Hsame; eauto. }
      apply (Hother p' Hin' Hne) in Hc.
      apply list_elem_of_singleton in Hc. contradiction.
Qed.

(** Every event the view offers preserves the invariant and moves the
    pages as section 4.1 allows. *)
Lemma step_preserves s e s' :
  Inv s → step s e = Some s' →
  Inv s' ∧ pages_move e (pages (st s)) (pages (st s')).
Proof.
  intros HI Hstep. unfold step in Hstep.
  destruct (offered s e) eqn:Hoff; [|discriminate].
  destruct e as [f|k o| pid | | | pid | k pid o]; simpl in Hstep.
  - injection Hstep as <-.
    destruct (upload_preserves s f HI Hoff) as (H1 & H2 & H3).
    split; [exact H1|]. left. rewrite H2, H3. constructor.
  - destruct (decoded_preserves s k o s' HI Hoff Hstep) as (H1 & H2 & H3).
    split; [exact H1|]. right. eauto.
  - injection Hstep as <-. split; [apply Inv_selection, HI|].
    left. apply Forall2_page_moves_refl.
  - injection Hstep as <-. split.
    + unfold handleSelectAll. destruct (allProcessableSelected _);
        apply Inv_selection, HI.
    + left. unfold handleSelectAll. destruct (allProcessableSelected _);
        apply Forall2_page_moves_refl.
  - injection Hstep as <-.
    destruct (process_preserves s HI Hoff). split; [|left]; assumption.
  - injection Hstep as <-.
    destruct (retry_preserves s pid HI Hoff). split; [|left]; assumption.
  - destruct (settled_preserves s k pid o s' HI Hstep). split; [|left]; assumption.
Qed.

Lemma exec_Inv s tr s' : Inv s → exec s tr = Some s' → Inv s'.
Proof.
  revert s. induction tr as [|e tr IH]; intros s HI He; simpl in He.
  - congruence.
  - destruct (step s e) as [s1|] eqn:Hs; [|discriminate].
    apply (IH s1); [|exact He]. eapply step_preserves; eauto.
Qed.

Lemma reachable_Inv tr s : exec init tr = Some s → Inv s.
Proof. apply exec_Inv, Inv_init. Qed.

End Invariant.

(** ** C1: the page invariant *)

(** The half of the invariant that every reachable state satisfies: a text
    is present exactly on the COMPLETED pages. *)
Lemma reachable_text_iff_completed tr s :
  exec init tr = Some s → Forall textOk (pages (st s)).
Proof. intros H. apply (inv_text s), (reachable_Inv tr), H. Qed.

(** C1 (fails on the code).  The claim: in every reachable state a page
    has an error only when its status is FAILED.  Here a page that failed
    in a batch is selected and dispatched again: [processSelectedPages]
    marks it PROCESSING with [{ ...p, status: PROCESSING }] and its old
    error stays; when the OCR call then succeeds the page is COMPLETED and
    still carries the error.  ([retryPageProcessing] clears it with
    [error: undefined].) *)
Theorem C1_error_survives_batch_redispatch :
  ∃ s1 s2,
    exec init redispatch = Some s1 ∧
    pages (st s1) =
      [mkPage "a" (mkFile "page_1.jpg" "image/jpeg") PROCESSING "data:a"
              None (Some "quota")] ∧
    step s1 (OcrSettled 0 "a" (Recognized "ka")) = Some s2 ∧
    pages (st s2) =
      [mkPage "a" (mkFile "page_1.jpg" "image/jpeg") COMPLETED "data:a"
              (Some "ka") (Some "quota")] ∧
    ¬ Forall pageInvariant (pages (st s1)) ∧
    ¬ Forall pageInvariant (pages (st s2)).
Proof.
  eexists _, _. split; [vm_compute; reflexivity|].
  split; [reflexivity|]. split; [vm_compute; reflexivity|].
  split; [reflexivity|]. split.
  - intros H. apply Forall_cons in H as [[_ H] _]. simpl in H.
    specialize (H ltac:(eauto)). discriminate.
  - intros H. apply Forall_cons in H as [[_ H] _]. simpl in H.
    specialize (H ltac:(eauto)). discriminate.
Qed.

(** ** C2: status transitions *)

(** C2.  For every state the component reaches and every event offered
    there, each page keeps its place and identifier and its status either
    stays or moves PENDING to PROCESSING, PROCESSING to COMPLETED,
    PROCESSING to FAILED or FAILED to PROCESSING, unless the event is the
    arrival of a decoded PDF, which fills the empty list with PENDING
    pages; no page leaves COMPLETED; the pages of a decoded PDF are
    [newPages] and all PENDING. *)
Theorem C2_status_transitions tr s e s' :
  exec init tr = Some s → step s e = Some s' →
  pages_move e (pages (st s)) (pages (st s')) ∧
  (∀ i p p', pages (st s) !! i = Some p → pages (st s') !! i = Some p' →
             status p = COMPLETED → status p' = COMPLETED) ∧
  (∀ k rs, e = PdfDecoded k (Decoded rs) →
           pages (st s') = newPages rs ∧
           Forall (λ p, status p = PENDING) (pages (st s'))).
Proof.
  intros Hr Hs. pose proof (reachable_Inv tr s Hr) as HI.
  destruct (step_preserves s e s' HI Hs) as [_ Hm].
  split; [exact Hm|]. split.
  - intros i p p' Hp Hp' Hc. destruct Hm as [HF|(_ & Hnil & _)].
    + destruct (Forall2_lookup_lr _ _ _ _ _ _ HF Hp Hp') as [_ [E|T]].
      * congruence.
      * rewrite Hc in T. inversion T.
    + rewrite Hnil in Hp. discriminate.
  - intros k rs ->. unfold step in Hs.
    destruct (offered s _) eqn:Hoff; [|discriminate].
    destruct (decoded_preserves s k (Decoded rs) s' HI Hoff Hs) as (_ & _ & HP).
    split; [|exact HP].
    simpl in Hs. destruct (flights s !! k) as [[| |]|]; try discriminate.
    injection Hs as <-. reflexivity.
Qed.

Lemma C2_status_transitions_witness :
  let e := OcrSettled 0 "a" (Recognized "ka") in
  let s := stateAfter batchOfTwo in
  let s' := stateAfter (batchOfTwo ++ [e]) in
  pages_move e (pages (st s)) (pages (st s')) ∧
  (∀ i p p', pages (st s) !! i = Some p → pages (st s') !! i = Some p' →
             status p = COMPLETED → status p' = COMPLETED) ∧
  (∀ k rs, e = PdfDecoded k (Decoded rs) →
           pages (st s') = newPages rs ∧
           Forall (λ p, status p = PENDING) (pages (st s'))).
Proof.
  intros e s s'. apply (C2_status_transitions batchOfTwo s e s').
  - vm_compute. reflexivity.
  - vm_compute. reflexivity.
Defined.

(** ** C3: batch dispatch *)

Section Batch.
Variable ocr : string → OcrOutcome.
Implicit Types (a : AppState) (p : Page) (ps : list Page).

Lemma setPages_setPages (f g : list Page → list Page) a :
  setPages f (setPages g a) = setPages (λ ps, f (g ps)) a.
Proof. destruct a. reflexivity. Qed.

Lemma settled_Permutation pid (rest w : list string) :
  NoDup w → pid :: rest ≡ₚ w → rest ≡ₚ settled pid w.
Proof.
  intros Hnd Hp.
  assert (Hnd' : NoDup (pid :: rest)) by (rewrite Hp; exact Hnd).
  apply NoDup_cons in Hnd' as [Hpid Hrest].
  apply NoDup_Permutation; [exact Hrest | apply settled_NoDup, Hnd |].
  intros x. rewrite settled_elem_of by exact Hnd. rewrite <- Hp, elem_of_cons.
  split.
  - intros Hx. split; [by right|]. intros ->. contradiction.
  - intros [[->|Hx] Hn]; [contradiction | exact Hx].
Qed.

(** All pending calls of a batch settle, in any order: the handler then
    runs to its end. *)
Lemma settle_all order : ∀ (w : list string) a al,
  w ≠ [] → NoDup w → order ≡ₚ w →
  exec (mkSys a [Batch w] al) (settlements ocr order)
  = Some (mkSys (batchDone
                   (setPages (λ ps, foldl (λ acc pid, settle pid (ocr pid) acc) ps order) a))
                [] al).
Proof.
  induction order as [|pid rest IH]; intros w a al Hne Hnd Hp.
  - apply Permutation_nil_l in Hp. congruence.
  - assert (Hin : pid ∈ w) by (rewrite <- Hp; apply list_elem_of_here).
    pose proof (settled_Permutation pid rest w Hnd Hp) as Hp'.
    cbn [settlements fmap list_fmap exec]. unfold step. cbn [offered handle].
    unfold ocrSettled. cbn [flights lookup list_lookup].
    rewrite bool_decide_eq_true_2 by exact Hin.
    destruct (settled pid w) as [|x w'] eqn:Hw.
    + apply Permutation_nil_r in Hp'. subst rest. simpl.
      destruct a; reflexivity.
    + change (list_fmap string Event (λ pid0, OcrSettled 0 pid0 (ocr pid0)) rest)
        with (settlements ocr rest).
      unfold reroute, onState. cbn [st flights alerts insert list_insert].
      rewrite (IH (x :: w')); [| discriminate | rewrite <- Hw; apply settled_NoDup, Hnd | exact Hp'].
      rewrite setPages_setPages. reflexivity.
Qed.

(** The settlements, folded into one map over the pages. *)
Lemma foldl_settle order : ∀ ps,
  NoDup order →
  foldl (λ acc pid, settle pid (ocr pid) acc) ps order
  = (λ p, if bool_decide (id p ∈ order) then settledPage (ocr (id p)) p else p) <$> ps.
Proof.
  induction order as [|pid rest IH]; intros ps Hnd.
  - simpl. rewrite <- (list_fmap_id ps) at 1. apply list_fmap_ext.
    intros i p _. reflexivity.
  - apply NoDup_cons in Hnd as [Hpid Hrest]. cbn [foldl].
    rewrite IH by exact Hrest. rewrite settle_updatePage. unfold updatePage.
    rewrite <- list_fmap_compose. apply list_fmap_ext. intros i p _. simpl.
    destruct (String.eqb_spec (id p) pid) as [E|Hne].
    + rewrite settledPage_keeps_id, E.
      rewrite (bool_decide_eq_false_2 (pid ∈ rest)) by exact Hpid.
      rewrite bool_decide_eq_true_2 by apply list_elem_of_here. reflexivity.
    + destruct (decide (id p ∈ rest)) as [Hin|Hin].
      * rewrite !bool_decide_eq_true_2; [reflexivity| |exact Hin].
        apply list_elem_of_further, Hin.
      * rewrite !bool_decide_eq_false_2; [reflexivity| |exact Hin].
        intros [?|?]%elem_of_cons; [congruence | contradiction].
Qed.

Lemma started_iff_dispatched a p :
  NoDup (id <$> pages a) → p ∈ pages a →
  id p ∈ id <$> startedPages a ↔ dispatched a p = true.
Proof.
  intros Hnd Hin. unfold dispatched, startedPages. split.
  - intros Hid. apply andb_true_iff. split.
    + apply list_elem_of_fmap in Hid as (q & E & Hq).
      apply list_elem_of_filter in Hq as [_ Hq].
      apply list_elem_of_filter in Hq as [Hsel Hq].
      apply bool_decide_eq_true_2. rewrite E. exact Hsel.
    + eapply started_processable; eauto.
  - intros [Hsel Hpr]%andb_true_iff. apply bool_decide_eq_true_1 in Hsel.
    apply list_elem_of_fmap_2, list_elem_of_filter. split; [exact Hpr|].
    apply list_elem_of_filter. split; assumption.
Qed.

End Batch.

(** A batch from the click to the last settlement, as two maps over the
    page list (the closed form used below). *)
Lemma batch_dispatch_as_maps tr s (ocr : string → OcrOutcome) (order : list string) :
  exec init tr = Some s →
  offered s ProcessSelected = true →
  order ≡ₚ id <$> startedPages (st s) →
  ∃ s1 s2,
    step s ProcessSelected = Some s1 ∧
    pages (st s1) =
      (λ p, if dispatched (st s) p then with_status PROCESSING p else p)
        <$> pages (st s) ∧
    exec s1 (settlements ocr order) = Some s2 ∧
    pages (st s2) =
      (λ p, if dispatched (st s) p then settledPage (ocr (id p)) p else p)
        <$> pages (st s).
Proof.
  intros Hr Hoff Hperm. pose proof (reachable_Inv tr s Hr) as HI.
  destruct (offered_process s HI Hoff) as (Hsz & _ & Hfl).
  pose proof (inv_ids s HI) as Hids.
  unfold step. rewrite Hoff. cbn [handle].
  rewrite processSelectedPages_unfold by exact Hsz. cbv zeta.
  destruct s as [a fl al]. cbn [st flights alerts] in *. subst fl.
  set (ids := id <$> startedPages a) in *.
  assert (Hmark : markAll ids (pages a) =
            (λ p, if dispatched a p then with_status PROCESSING p else p) <$> pages a).
  { unfold markAll. apply list_fmap_ext. intros i p Hp.
    apply list_elem_of_lookup_2 in Hp.
    pose proof (started_iff_dispatched a p Hids Hp) as Hiff. fold ids in Hiff.
    destruct (dispatched a p).
    - rewrite bool_decide_eq_true_2; [reflexivity | by apply Hiff].
    - rewrite bool_decide_eq_false_2; [reflexivity|].
      intros Hc. apply Hiff in Hc. discriminate. }
  assert (Hfinal : (λ p, if bool_decide (id p ∈ order)
                         then settledPage (ocr (id p)) p else p)
                     <$> markAll ids (pages a)
                   = (λ p, if dispatched a p then settledPage (ocr (id p)) p else p)
                     <$> pages a).
  { unfold markAll. rewrite <- list_fmap_compose. apply list_fmap_ext.
    intros i p Hp. apply list_elem_of_lookup_2 in Hp. simpl.
    pose proof (started_iff_dispatched a p Hids Hp) as Hiff. fold ids in Hiff.
    destruct (dispatched a p).
    - assert (Hin : id p ∈ ids) by (by apply Hiff).
      rewrite (bool_decide_eq_true_2 _ Hin). simpl.
      rewrite bool_decide_eq_true_2 by (rewrite Hperm; exact Hin).
      destruct (ocr (id p)); reflexivity.
    - assert (Hin : id p ∉ ids) by (intros Hc; apply Hiff in Hc; discriminate).
      rewrite (bool_decide_eq_false_2 _ Hin).
      rewrite bool_decide_eq_false_2 by (rewrite Hperm; exact Hin).
      reflexivity. }
  assert (Hnd : NoDup ids)
    by (unfold ids, startedPages; apply started_NoDup, Hids).
  destruct (startedPages a) as [|q started] eqn:Hst.
  - apply Permutation_nil_r in Hperm. subst order.
    eexists _, _. split; [reflexivity|]. split; [exact Hmark|].
    split; [reflexivity|]. cbn [st pages batchDone setIsProcessing setSelectedPages setPages].
    rewrite <- Hfinal. unfold markAll at 1.
    rewrite <- (list_fmap_id (_ <$> pages a)) at 1.
    apply list_fmap_ext. intros i p _. reflexivity.
  - eexists _, _. split; [reflexivity|]. split; [exact Hmark|].
    unfold launch. cbn [st flights alerts app].
    rewrite (settle_all ocr order ids);
      [| subst ids; discriminate | exact Hnd | exact Hperm].
    split; [reflexivity|].
    cbn [st pages batchDone setIsProcessing setSelectedPages setPages].
    rewrite foldl_settle by (rewrite Hperm; exact Hnd).
    exact Hfinal.
Qed.

(** C3.  In a state the component reaches and in which the process button
    is enabled, take the page [p] at any position [i].
    - If [p] is selected and PENDING or FAILED, then right after
      [processSelectedPages] the page at [i] is [p] with status PROCESSING
      (every other field as in [p]), and once the OCR calls the handler
      started have settled, in whatever order, the page at [i] is, by the
      outcome of its own call: COMPLETED with the returned text; or FAILED
      with the message of the thrown [Error]; or FAILED with
      "An unknown error occurred." when what was thrown is no [Error].
      Identifier, file and preview are those of [p]; the fields the
      handler does not name in its spread keep the value they have in [p].
    - Otherwise (not selected, or selected and PROCESSING or COMPLETED)
      the page at [i] is [p] itself, after the click and after all
      settlements. *)
Theorem C3_batch_dispatch tr s (ocr : string → OcrOutcome) (order : list string) :
  exec init tr = Some s →
  offered s ProcessSelected = true →
  order ≡ₚ id <$> startedPages (st s) →
  ∃ s1 s2,
    step s ProcessSelected = Some s1 ∧
    exec s1 (settlements ocr order) = Some s2 ∧
    ∀ i p, pages (st s) !! i = Some p →
      (id p ∈ selectedPages (st s) ∧ (status p = PENDING ∨ status p = FAILED) →
       pages (st s1) !! i =
         Some (mkPage (id p) (file p) PROCESSING (previewUrl p) (text p) (error p)) ∧
       pages (st s2) !! i =
         Some match ocr (id p) with
              | Recognized t =>
                  mkPage (id p) (file p) COMPLETED (previewUrl p) (Some t) (error p)
              | ThrownError m =>
                  mkPage (id p) (file p) FAILED (previewUrl p) (text p) (Some m)
              | ThrownOther =>
                  mkPage (id p) (file p) FAILED (previewUrl p) (text p)
                         (Some "An unknown error occurred.")
              end) ∧
      (¬ (id p ∈ selectedPages (st s) ∧ (status p = PENDING ∨ status p = FAILED)) →
       pages (st s1) !! i = Some p ∧ pages (st s2) !! i = Some p).
Proof.
  intros Hr Hoff Hperm.
  destruct (batch_dispatch_as_maps tr s ocr order Hr Hoff Hperm)
    as (s1 & s2 & Hstep & Hp1 & Hexec & Hp2).
  exists s1, s2. split; [exact Hstep|]. split; [exact Hexec|].
  intros i p Hi.
  assert (Hd : dispatched (st s) p = true ↔
               id p ∈ selectedPages (st s) ∧ (status p = PENDING ∨ status p = FAILED)).
  { unfold dispatched, processable.
    rewrite andb_true_iff, orb_true_iff, !bool_decide_eq_true. reflexivity. }
  rewrite Hp1, Hp2, !list_lookup_fmap, Hi. cbn [fmap option_fmap option_map].
  split.
  - intros Hc. apply Hd in Hc. rewrite Hc. split; [reflexivity|].
    destruct (ocr (id p)); reflexivity.
  - intros Hc. destruct (dispatched (st s) p) eqn:E.
    + exfalso. apply Hc, Hd. reflexivity.
    + split; reflexivity.
Qed.

(** Two pages, both selected; the call for "b" settles first and throws,
    the call for "a" returns "ka". *)
Lemma C3_batch_dispatch_witness :
  let tr := [Upload (Some pdf); PdfDecoded 0 twoPages;
             ToggleSelect "a"; ToggleSelect "b"] in
  let ocr := λ pid, if String.eqb pid "a" then Recognized "ka" else ThrownError "quota" in
  ∃ s1 s2,
    step (stateAfter tr) ProcessSelected = Some s1 ∧
    exec s1 (settlements ocr ["b"; "a"]) = Some s2 ∧
    pages (st s1) !! 0 =
      Some (mkPage "a" (mkFile "page_1.jpg" "image/jpeg") PROCESSING "data:a" None None) ∧
    pages (st s1) !! 1 =
      Some (mkPage "b" (mkFile "page_2.jpg" "image/jpeg") PROCESSING "data:b" None None) ∧
    pages (st s2) !! 0 =
      Some (mkPage "a" (mkFile "page_1.jpg" "image/jpeg") COMPLETED "data:a"
                   (Some "ka") None) ∧
    pages (st s2) !! 1 =
      Some (mkPage "b" (mkFile "page_2.jpg" "image/jpeg") FAILED "data:b"
                   None (Some "quota")).
Proof.
  intros tr ocr.
  destruct (C3_batch_dispatch tr (stateAfter tr) ocr ["b"; "a"])
    as (s1 & s2 & Hstep & Hexec & Hall).
  - vm_compute. reflexivity.
  - vm_compute. reflexivity.
  - vm_compute. apply perm_swap.
  - exists s1, s2. split; [exact Hstep|]. split; [exact Hexec|].
    destruct (Hall 0 (mkPage "a" (mkFile "page_1.jpg" "image/jpeg") PENDING "data:a"
                             None None)) as [[Ha1 Ha2] _].
    { vm_compute. reflexivity. }
    { split; [|left; reflexivity].
      apply (bool_decide_unpack _). vm_compute. exact I. }
    destruct (Hall 1 (mkPage "b" (mkFile "page_2.jpg" "image/jpeg") PENDING "data:b"
                             None None)) as [[Hb1 Hb2] _].
    { vm_compute. reflexivity. }
    { split; [|left; reflexivity].
      apply (bool_decide_unpack _). vm_compute. exact I. }
    repeat split; assumption.
Defined.

(** ** C4: the end of a batch *)

(** C4.  In every state the component reaches, an event that ends a run of
    [processSelectedPages] leaves the selection empty and no page
    PROCESSING. *)
Theorem C4_after_batch tr s e s' :
  exec init tr = Some s → step s e = Some s' → batch_completes s e s' →
  selectedPages (st s') = ∅ ∧
  Forall (λ p, status p ≠ PROCESSING) (pages (st s')).
Proof.
  intros Hr Hs Hc. pose proof (reachable_Inv tr s Hr) as HI.
  destruct (step_preserves s e s' HI Hs) as [HI' _].
  assert (Hidle : flights s' = [] → Forall (λ p, status p ≠ PROCESSING) (pages (st s'))).
  { intros Hfl. apply Forall_forall. intros p Hin Hst.
    apply (inv_processing s' HI' p Hin) in Hst. rewrite Hfl in Hst. inversion Hst. }
  unfold step in Hs. destruct (offered s e) eqn:Hoff; [|discriminate].
  destruct Hc as [[-> Hfl]|(k & pid & o & w & -> & Hk & Hlen)].
  - destruct (offered_process s HI Hoff) as (Hsz & _ & Hnil).
    simpl in Hs. injection Hs as <-.
    rewrite processSelectedPages_unfold in * by exact Hsz. cbv zeta in *.
    destruct (startedPages (st s)) as [|q started].
    + split; [reflexivity|]. apply Hidle. simpl. exact Hnil.
    + simpl in Hfl. rewrite Hnil in Hfl. discriminate.
  - simpl in Hs. unfold ocrSettled in Hs. rewrite Hk in Hs.
    destruct (bool_decide (pid ∈ w)); [|discriminate].
    destruct (settled pid w) as [|x rest]; injection Hs as <-.
    + split; [reflexivity|]. apply Hidle.
      destruct HI as [_ _ Hsh _]. simpl.
      inversion Hsh as [a H1 H2 E| a H1 H2 H3 E| a w0 H1 H2 H3 H4 E| a p0 H1 H2 E];
        rewrite <- E in Hk; destruct k; simpl in Hk; try discriminate;
        try (destruct k; discriminate); reflexivity.
    + simpl in Hlen. rewrite length_insert in Hlen. lia.
Qed.

Lemma C4_after_batch_witness :
  let e := OcrSettled 0 "a" (Recognized "ka") in
  let s' := stateAfter (batchOfTwo ++ [e]) in
  selectedPages (st s') = ∅ ∧
  Forall (λ p, status p ≠ PROCESSING) (pages (st s')).
Proof.
  intros e s'. apply (C4_after_batch batchOfTwo (stateAfter batchOfTwo) e s').
  - vm_compute. reflexivity.
  - vm_compute. reflexivity.
  - right. exists 0, "a", (Recognized "ka"), ["a"].
    split; [reflexivity|]. split; [vm_compute; reflexivity | vm_compute; lia].
Defined.

(** ** C5 and C6: retry *)

Lemma idle_not_processing s : Inv s → flights s = [] → isProcessing (st s) = false.
Proof.
  intros [_ _ Hs _] Hfl. rewrite Hfl in Hs. inversion Hs. assumption.
Qed.

Lemma busy_processing s f :
  Inv s → f ∈ flights s → f ≠ Decoding → isProcessing (st s) = true.
Proof.
  intros [_ _ Hs _] Hin Hne.
  inversion Hs as [a H1 H2 E| a H1 H2 H3 E| a w0 H1 H2 H3 H4 E| a p0 H1 H2 E];
    rewrite <- E in Hin.
  - inversion Hin.
  - apply list_elem_of_singleton in Hin. contradiction.
  - assumption.
  - assumption.
Qed.

(** C5, as stated, fails.  Two pages have failed and nothing but a retry
    of page "a" is in flight: no batch operation.  Retry on the FAILED page
    "b" changes nothing; the page is not moved to PROCESSING and keeps its
    error. *)
Lemma C5_retry_waits_for_retry :
  let s := stateAfter (bothFailed ++ [RetryPage "a"]) in
  exec init (bothFailed ++ [RetryPage "a"]) = Some s ∧
  flights s = [Retry "a"] ∧
  pages (st s) !! 1 =
    Some (mkPage "b" (mkFile "page_2.jpg" "image/jpeg") FAILED "data:b"
                 None (Some "An unknown error occurred.")) ∧
  step s (RetryPage "b") = Some s.
Proof.
  cbv zeta. split; [vm_compute; reflexivity|].
  split; [vm_compute; reflexivity|].
  split; vm_compute; reflexivity.
Qed.

(** C5, amended.  In a state the component reaches:
    - with nothing in flight, retry on a FAILED page first makes that page
      PROCESSING with its error cleared and changes no other page, and
      when the OCR call settles the page is COMPLETED with the text and no
      error, or FAILED with the new message, again with no other page
      changed;
    - while a batch operation or another retry is in flight, or when the
      identifier matches no page, [retryPageProcessing] changes nothing. *)
Theorem C5_retry tr s pid :
  exec init tr = Some s →
  (flights s = [] →
   ∀ i p, pages (st s) !! i = Some p → id p = pid → status p = FAILED →
     ∃ s1, step s (RetryPage pid) = Some s1 ∧
           pages (st s1) =
             <[i := with_error None (with_status PROCESSING p)]> (pages (st s)) ∧
           ∀ o, ∃ s2, step s1 (OcrSettled 0 pid o) = Some s2 ∧
                      pages (st s2) =
                        <[i := settledPage o (with_error None p)]> (pages (st s)) ∧
                      flights s2 = []) ∧
  ((∃ w, Batch w ∈ flights s) ∨ (∃ q, Retry q ∈ flights s) ∨
   pid ∉ id <$> pages (st s) →
   retryPageProcessing pid s = s).
Proof.
  intros Hr. pose proof (reachable_Inv tr s Hr) as HI. split.
  - intros Hfl i p Hi Hid Hst.
    pose proof (idle_not_processing s HI Hfl) as Hp.
    pose proof (inv_ids s HI) as Hids.
    assert (Hin : p ∈ pages (st s)) by (eapply list_elem_of_lookup_2; eauto).
    assert (Hoff : offered s (RetryPage pid) = true).
    { unfold offered. apply existsb_exists. exists p. split; [by apply list_elem_of_In|].
      cbv beta. rewrite Hid. rewrite String.eqb_refl.
      rewrite bool_decide_eq_true_2 by exact Hst. reflexivity. }
    unfold step at 1. rewrite Hoff. cbn [handle]. unfold retryPageProcessing.
    destruct (find_page_Some _ _ _ Hin Hid) as [q ->]. rewrite Hp.
    eexists. split; [reflexivity|].
    destruct s as [a fl al]. cbn [st flights alerts] in *. subst fl.
    unfold launch, onState, markRetrying.
    cbn [st flights alerts pages setPages setIsProcessing app].
    rewrite (updatePage_insert pid _ (pages a) i p Hids Hi Hid).
    split; [reflexivity|]. intros o.
    unfold step. cbn [offered handle]. unfold ocrSettled. cbn [flights].
    change ([Retry pid] !! 0) with (Some (Retry pid)). cbv iota beta.
    rewrite String.eqb_refl.
    eexists. split; [reflexivity|].
    unfold land, onState.
    cbn [st flights alerts pages setPages setIsProcessing].
    split; [|reflexivity].
    rewrite (updatePage_insert pid _ (pages a) i p Hids Hi Hid).
    rewrite settle_updatePage.
    rewrite (updatePage_insert pid _ _ i (with_error None (with_status PROCESSING p))).
    + rewrite list_insert_insert_eq. destruct o; reflexivity.
    + rewrite list_fmap_insert. simpl. rewrite list_insert_id; [exact Hids|].
      rewrite list_lookup_fmap, Hi. reflexivity.
    + apply list_lookup_insert_eq. eapply lookup_lt_Some; eauto.
    + exact Hid.
  - intros [[w Hw]|[[q Hq]|Hno]]; unfold retryPageProcessing.
    + rewrite (busy_processing s (Batch w) HI Hw) by discriminate.
      destruct (find _ _); reflexivity.
    + rewrite (busy_processing s (Retry q) HI Hq) by discriminate.
      destruct (find _ _); reflexivity.
    + rewrite find_page_None by exact Hno. reflexivity.
Qed.

Lemma C5_retry_witness :
  let s := stateAfter bothFailed in
  (flights s = [] →
   ∀ i p, pages (st s) !! i = Some p → id p = "b" → status p = FAILED →
     ∃ s1, step s (RetryPage "b") = Some s1 ∧
           pages (st s1) =
             <[i := with_error None (with_status PROCESSING p)]> (pages (st s)) ∧
           ∀ o, ∃ s2, step s1 (OcrSettled 0 "b" o) = Some s2 ∧
                      pages (st s2) =
                        <[i := settledPage o (with_error None p)]> (pages (st s)) ∧
                      flights s2 = []) ∧
  ((∃ w, Batch w ∈ flights s) ∨ (∃ q, Retry q ∈ flights s) ∨
   "b" ∉ id <$> pages (st s) →
   retryPageProcessing "b" s = s).
Proof.
  intros s. apply (C5_retry bothFailed s "b"). vm_compute. reflexivity.
Defined.

(** C6, as stated, fails, in two ways.
    - Page "a" is COMPLETED and nothing is in flight.
      [retryPageProcessing] has no status test: run on "a" with a failing
      OCR call it leaves the page FAILED (its old text still there), while
      batch dispatch with the selection {"a"} does not touch a COMPLETED
      page.  (The view has no retry button on a COMPLETED page; the claim
      ranges over every identifier.)
    - Pages "a" and "b" are FAILED and a retry of "a" is in flight, no
      batch.  Retry on "b" returns at its [isProcessing] test and changes
      nothing, while batch dispatch with the selection {"b"}, which has no
      such test, processes "b". *)
Lemma C6_retry_differs_from_batch :
  let s := stateAfter (oneDone "old") in
  let o := ThrownError "quota" in
  let s' := stateAfter (bothFailed ++ [RetryPage "a"]) in
  (exec init (oneDone "old") = Some s ∧
   flights s = [] ∧ isProcessing (st s) = false ∧
   retry_impl "a" o s =
     [mkPage "a" (mkFile "page_1.jpg" "image/jpeg") FAILED "data:a"
             (Some "old") (Some "quota")] ∧
   retry_per_spec "a" o s =
     [mkPage "a" (mkFile "page_1.jpg" "image/jpeg") COMPLETED "data:a"
             (Some "old") None] ∧
   retry_impl "a" o s ≠ retry_per_spec "a" o s) ∧
  (exec init (bothFailed ++ [RetryPage "a"]) = Some s' ∧
   flights s' = [Retry "a"] ∧
   status <$> retry_impl "b" (Recognized "kha") s' = [PROCESSING; FAILED] ∧
   status <$> retry_per_spec "b" (Recognized "kha") s' = [PROCESSING; COMPLETED] ∧
   retry_impl "b" (Recognized "kha") s' ≠ retry_per_spec "b" (Recognized "kha") s').
Proof.
  cbv zeta. split.
  - split; [vm_compute; reflexivity|].
    split; [vm_compute; reflexivity|]. split; [vm_compute; reflexivity|].
    split; [vm_compute; reflexivity|]. split; [vm_compute; reflexivity|].
    vm_compute. discriminate.
  - split; [vm_compute; reflexivity|].
    split; [vm_compute; reflexivity|]. split; [vm_compute; reflexivity|].
    split; [vm_compute; reflexivity|].
    vm_compute. discriminate.
Qed.

Lemma started_single pid ps :
  (∀ p, p ∈ ps → id p = pid → processable p = true) →
  let started :=
    filter (λ p, processable p = true)
           (filter (λ p, id p ∈ ({[pid]} : gset string)) (clearError pid ps)) in
  (∀ x, x ∈ id <$> started → x = pid) ∧
  (pid ∈ id <$> ps → pid ∈ id <$> started).
Proof.
  intros Hproc started. split.
  - intros x (q & -> & Hq)%list_elem_of_fmap.
    apply list_elem_of_filter in Hq as [_ Hq].
    apply list_elem_of_filter in Hq as [Hsel _].
    apply elem_of_singleton in Hsel. exact Hsel.
  - intros (p & E & Hp)%list_elem_of_fmap.
    apply list_elem_of_fmap. exists (with_error None p). split; [exact E|].
    apply list_elem_of_filter. split.
    + apply (Hproc p Hp). congruence.
    + apply list_elem_of_filter. split.
      * apply elem_of_singleton. simpl. congruence.
      * unfold clearError, updatePage. apply list_elem_of_fmap. exists p.
        split; [|exact Hp]. rewrite <- E, String.eqb_refl. reflexivity.
Qed.

Lemma markAll_clearError pid ids ps :
  (∀ x, x ∈ ids → x = pid) → pid ∈ ids →
  markAll ids (clearError pid ps) = markRetrying pid ps.
Proof.
  intros Hall Hin. unfold markAll, clearError, markRetrying, updatePage.
  rewrite <- list_fmap_compose. apply list_fmap_ext. intros i p _. simpl.
  destruct (String.eqb_spec (id p) pid) as [E|Hne].
  - simpl. rewrite E, bool_decide_eq_true_2 by exact Hin. reflexivity.
  - rewrite bool_decide_eq_false_2; [reflexivity|].
    intros Hc. apply Hall in Hc. contradiction.
Qed.

Lemma lookup_newest (fl : list Flight) (f : Flight) :
  ((fl ++ [f])%list : list Flight) !! length fl = Some f.
Proof. apply list_lookup_middle. reflexivity. Qed.

Lemma lookup_beyond (fl : list Flight) : fl !! length fl = None.
Proof. apply lookup_ge_None_2. lia. Qed.

Lemma retry_impl_pages pid o s :
  isProcessing (st s) = false →
  retry_impl pid o s =
  if bool_decide (pid ∈ id <$> pages (st s))
  then settle pid o (markRetrying pid (pages (st s)))
  else pages (st s).
Proof.
  intros Hp. destruct s as [[ps sel pr ld cs] fl al]. simpl in Hp. subst pr.
  unfold retry_impl, finalPages, handle. cbv iota beta.
  unfold retryPageProcessing. cbn [st pages isProcessing flights].
  destruct (decide (pid ∈ id <$> ps)) as [Hin|Hno].
  - rewrite bool_decide_eq_true_2 by exact Hin.
    apply list_elem_of_fmap in Hin as (p & E & Hin).
    destruct (find_page_Some ps pid p Hin (eq_sym E)) as [q ->].
    unfold ocrSettled, launch, onState. cbn [st flights alerts].
    rewrite lookup_newest, String.eqb_refl. reflexivity.
  - rewrite bool_decide_eq_false_2 by exact Hno.
    rewrite find_page_None by exact Hno.
    unfold ocrSettled. cbn [flights]. rewrite lookup_beyond. reflexivity.
Qed.

Lemma batch_pages pid o s :
  size (selectedPages (st s)) ≠ 0 →
  finalPages ProcessSelected pid o s =
  let ids := id <$> startedPages (st s) in
  if bool_decide (pid ∈ ids)
  then settle pid o (markAll ids (pages (st s)))
  else markAll ids (pages (st s)).
Proof.
  intros Hsz. unfold finalPages, handle.
  rewrite processSelectedPages_unfold by exact Hsz. cbv zeta.
  destruct s as [[ps sel pr ld cs] fl al]. cbn [st flights alerts].
  destruct (startedPages _) as [|q started].
  - unfold ocrSettled. cbn [flights]. rewrite lookup_beyond. reflexivity.
  - unfold ocrSettled, launch. cbn [flights]. rewrite lookup_newest.
    destruct (bool_decide (pid ∈ id <$> q :: started)); [|reflexivity].
    destruct (settled pid (id <$> q :: started)); reflexivity.
Qed.

(** C6, amended.  With nothing in flight ([isProcessing] is false), and for
    an identifier that matches no page or a page that is PENDING or FAILED,
    retry ends with the pages that batch dispatch ends with when it is run
    with the selection holding just that identifier on the state in which
    the error of that page has been cleared. *)
Theorem C6_retry_refines_batch s pid o :
  isProcessing (st s) = false →
  (∀ p, p ∈ pages (st s) → id p = pid → processable p = true) →
  retry_impl pid o s = retry_per_spec pid o s.
Proof.
  intros Hp Hproc. rewrite retry_impl_pages by exact Hp.
  unfold retry_per_spec. rewrite batch_pages
    by (unfold onState; cbn [st selectedPages setSelectedPages];
        rewrite size_singleton; lia).
  cbv zeta. destruct s as [[ps sel pr ld cs] fl al].
  unfold startedPages, onState.
  cbn [st pages selectedPages setPages setSelectedPages] in *.
  destruct (started_single pid ps Hproc) as [Hall Hsome].
  destruct (decide (pid ∈ id <$> ps)) as [Hin|Hno].
  - specialize (Hsome Hin). rewrite !bool_decide_eq_true_2 by assumption.
    rewrite (markAll_clearError pid _ _ Hall Hsome). reflexivity.
  - rewrite bool_decide_eq_false_2 by exact Hno.
    rewrite bool_decide_eq_false_2
      by (intros Hc; apply Hno; unfold clearError in Hc;
          rewrite updatePage_absent in Hc by exact Hno;
          apply list_elem_of_fmap in Hc as (q & -> & Hq);
          apply list_elem_of_filter in Hq as [_ Hq];
          apply list_elem_of_filter in Hq as [_ Hq];
          apply list_elem_of_fmap_2, Hq).
    unfold clearError in *. rewrite updatePage_absent in * by exact Hno.
    unfold markAll. rewrite <- (list_fmap_id ps) at 1. apply list_fmap_ext.
    intros i p Hi. simpl. rewrite bool_decide_eq_false_2; [reflexivity|].
    intros Hc. apply Hno. apply Hall in Hc. rewrite <- Hc.
    apply list_elem_of_fmap_2. eapply list_elem_of_lookup_2; eauto.
Qed.

Lemma C6_retry_refines_batch_witness :
  let s := stateAfter bothFailed in
  retry_impl "b" (Recognized "kha") s = retry_per_spec "b" (Recognized "kha") s.
Proof.
  intros s. apply (C6_retry_refines_batch s "b" (Recognized "kha")).
  - vm_compute. reflexivity.
  - intros p Hin Hid.
    assert (H : Forall (λ q, processable q = true) (pages (st s)))
      by (vm_compute; repeat constructor).
    rewrite Forall_forall in H. apply H, Hin.
Defined.

(** ** C7: the combined text *)

Lemma findIndex_position (ps : list Page) : ∀ i p,
  NoDup (id <$> ps) → ps !! i = Some p →
  findIndex (λ q, String.eqb (id q) (id p)) ps = Z.of_nat i.
Proof.
  induction ps as [|x ps IH]; intros i p Hnd Hi; [discriminate|].
  rewrite fmap_cons in Hnd. apply NoDup_cons in Hnd as [Hx Hnd].
  destruct i as [|i]; cbn [findIndex].
  - injection Hi as ->. rewrite String.eqb_refl. reflexivity.
  - change ((x :: ps) !! S i) with (ps !! i) in Hi.
    destruct (String.eqb_spec (id x) (id p)) as [E|_].
    + exfalso. apply Hx. rewrite E.
      apply list_elem_of_fmap_2. eapply list_elem_of_lookup_2; eauto.
    + rewrite (IH i p Hnd Hi).
      rewrite bool_decide_eq_false_2 by lia. lia.
Qed.

Lemma filter_numbered (P : Page → Prop) `{∀ p, Decision (P p)} (ps : list Page) :
  ∀ (h : nat → nat),
  filter P ps = snd <$> filter (λ ip, P ip.2) (imap (λ i p, (h i, p)) ps).
Proof.
  induction ps as [|x ps IH]; intros h; [reflexivity|].
  cbn [imap]. rewrite !filter_cons. cbn [snd].
  destruct (decide (P x)).
  - rewrite fmap_cons. cbn [snd]. f_equal. apply (IH (h ∘ S)).
  - apply (IH (h ∘ S)).
Qed.

Lemma numbered_lookup (ps : list Page) i p :
  (i, p) ∈ numbered ps → ps !! i = Some p.
Proof.
  intros (j & Hj)%list_elem_of_lookup. unfold numbered in Hj.
  rewrite list_lookup_imap in Hj.
  destruct (ps !! j) as [q|] eqn:Hq; [|discriminate].
  simpl in Hj. injection Hj as -> ->. exact Hq.
Qed.

(** C7, as stated, fails.  The OCR call for the only page returned the
    empty string: the page is COMPLETED, and the combined text has no entry
    for it. *)
Lemma C7_completed_page_without_entry :
  let s := stateAfter (oneDone "") in
  exec init (oneDone "") = Some s ∧
  pages (st s) =
    [mkPage "a" (mkFile "page_1.jpg" "image/jpeg") COMPLETED "data:a" (Some "") None] ∧
  combinedText (st s) = "" ∧
  combinedText_of_completed (st s) = pageHeader 1 ∧
  combinedText (st s) ≠ combinedText_of_completed (st s).
Proof.
  cbv zeta. split; [vm_compute; reflexivity|].
  split; [vm_compute; reflexivity|]. split; [vm_compute; reflexivity|].
  split; [vm_compute; reflexivity|]. vm_compute. discriminate.
Qed.

(** With distinct identifiers [findIndex] finds the page's own position,
    so the combined text can be read off the numbered page list. *)
Lemma combinedText_by_position (a : AppState) :
  NoDup (id <$> pages a) →
  combinedText a = combinedText_of_shown a.
Proof.
  intros Hnd. unfold combinedText, combinedText_of_shown. f_equal.
  change (filter (λ p, bool_decide (status p = COMPLETED) && truthy (text p) = true)
                 (pages a))
    with (filter (λ p, shown p = true) (pages a)).
  rewrite (filter_numbered (λ p, shown p = true) (pages a) (λ i, i)).
  fold (numbered (pages a)).
  rewrite <- list_fmap_compose. apply list_fmap_ext.
  intros k [i p] Hk. apply list_elem_of_lookup_2 in Hk.
  apply list_elem_of_filter in Hk as [_ Hk]. apply numbered_lookup in Hk.
  unfold entry. simpl.
  rewrite (findIndex_position (pages a) i p Hnd Hk). reflexivity.
Qed.

(** C7, amended.  In every state the component reaches, the combined text
    has an entry for exactly the pages that are COMPLETED with a non-empty
    text: the header with the page's 1-based position in the pages list,
    then the text; the entries come in page order, joined by a blank line;
    every other page contributes nothing. *)
Theorem C7_combinedText tr s :
  exec init tr = Some s →
  combinedText (st s) = combinedText_of_shown (st s).
Proof.
  intros Hr. apply combinedText_by_position.
  apply (inv_ids s), (reachable_Inv tr), Hr.
Qed.

Lemma C7_combinedText_witness :
  let tr := (batchOfTwo ++ [OcrSettled 0 "a" (Recognized "ka")])%list in
  combinedText (st (stateAfter tr)) = combinedText_of_shown (st (stateAfter tr)).
Proof.
  intros tr. apply (C7_combinedText tr (stateAfter tr)). vm_compute. reflexivity.
Defined.

(** ** C8: a PDF that cannot be decoded *)

(** C8.  Whatever the state, when a PDF file is handed to [handlePdfFile]
    and the decoding throws, the handler ends with an alert, an empty pages
    list and an empty selection, and is no longer loading. *)
Theorem C8_decode_failure (s : Sys) (f : File) :
  type f = "application/pdf" →
  ∃ s', handle (PdfDecoded (length (flights s)) DecodeThrew)
               (handlePdfFile (Some f) s) = Some s' ∧
        pages (st s') = [] ∧
        selectedPages (st s') = ∅ ∧
        alerts s' =
          "There was an error processing the PDF. Please ensure it's a valid file."
            :: alerts s ∧
        isPdfLoading (st s') = false ∧
        flights s' = flights s.
Proof.
  intros Hty. unfold handlePdfFile. rewrite Hty.
  change (String.eqb "application/pdf" "application/pdf") with true. cbv iota.
  unfold handle, launch. cbn [flights]. rewrite lookup_newest.
  eexists. split; [reflexivity|].
  destruct s as [[ps sel pr ld cs] fl al]. cbn.
  repeat split; try reflexivity.
  rewrite delete_middle. apply app_nil_r.
Qed.

Lemma C8_decode_failure_witness :
  let s := stateAfter (oneDone "ka") in
  ∃ s', handle (PdfDecoded (length (flights s)) DecodeThrew)
               (handlePdfFile (Some pdf) s) = Some s' ∧
        pages (st s') = [] ∧
        selectedPages (st s') = ∅ ∧
        alerts s' =
          "There was an error processing the PDF. Please ensure it's a valid file."
            :: alerts s ∧
        isPdfLoading (st s') = false ∧
        flights s' = flights s.
Proof.
  intros s. apply (C8_decode_failure s pdf). reflexivity.
Defined.

(** ** C9: select-all *)

(** C9, as stated, fails.  The only page is PENDING and already selected
    (by its own checkbox): select-all, invoked once, empties the selection
    instead of making it the processable identifiers. *)
Lemma C9_select_all_deselects_first :
  let s := stateAfter [Upload (Some pdf); PdfDecoded 0 onePage; ToggleSelect "a"] in
  exec init [Upload (Some pdf); PdfDecoded 0 onePage; ToggleSelect "a"] = Some s ∧
  processablePageIds (st s) = ["a"] ∧
  selectedPages (st s) = {["a"]} ∧
  offered s SelectAll = true ∧
  selectedPages (st (handleSelectAll s)) = ∅ ∧
  ¬ selectsAllThenNone s.
Proof.
  cbv zeta. split; [vm_compute; reflexivity|].
  split; [vm_compute; reflexivity|]. split; [vm_compute; reflexivity|].
  split; [vm_compute; reflexivity|]. split; [vm_compute; reflexivity|].
  intros [H _]. vm_compute in H. discriminate.
Qed.

Lemma allProcessableSelected_true (a : AppState) :
  allProcessableSelected a = true ↔
  processablePageIds a ≠ [] ∧ ∀ i, i ∈ processablePageIds a → i ∈ selectedPages a.
Proof.
  unfold allProcessableSelected. rewrite andb_true_iff, bool_decide_eq_true.
  rewrite forallb_forall. split.
  - intros [Hlen Hall]. split.
    + intros E. rewrite E in Hlen. simpl in Hlen. lia.
    + intros i Hi. apply list_elem_of_In in Hi.
      apply Hall in Hi. apply bool_decide_eq_true_1 in Hi. exact Hi.
  - intros [Hne Hall]. split.
    + destruct (processablePageIds a); [congruence | simpl; lia].
    + intros i Hi. apply bool_decide_eq_true_2, Hall, list_elem_of_In, Hi.
Qed.

(** C9, amended.  From any state with at least one processable page in
    which not every processable page is selected already, select-all makes
    the selection exactly the processable identifiers, and invoked again
    makes it empty.  (When every processable page is selected already, the
    first invocation empties the selection.) *)
Theorem C9_select_all (s : Sys) :
  processablePageIds (st s) ≠ [] →
  (allProcessableSelected (st s) = false → selectsAllThenNone s) ∧
  (allProcessableSelected (st s) = true →
   selectedPages (st (handleSelectAll s)) = ∅).
Proof.
  intros Hne. split.
  - intros Hnot. unfold selectsAllThenNone.
    assert (H1 : handleSelectAll s =
                 onState (setSelectedPages
                            (λ _, list_to_set (processablePageIds (st s)))) s).
    { unfold handleSelectAll. rewrite Hnot. reflexivity. }
    rewrite H1. split; [reflexivity|].
    unfold handleSelectAll at 1.
    assert (Hall : allProcessableSelected
                     (st (onState (setSelectedPages
                            (λ _, list_to_set (processablePageIds (st s)))) s)) = true).
    { apply allProcessableSelected_true. split; [exact Hne|].
      intros i Hi. simpl. apply elem_of_list_to_set. exact Hi. }
    rewrite Hall. reflexivity.
  - intros Hall. unfold handleSelectAll. rewrite Hall. reflexivity.
Qed.

Lemma C9_select_all_witness :
  let s := stateAfter [Upload (Some pdf); PdfDecoded 0 twoPages; ToggleSelect "a"] in
  (allProcessableSelected (st s) = false → selectsAllThenNone s) ∧
  (allProcessableSelected (st s) = true →
   selectedPages (st (handleSelectAll s)) = ∅).
Proof.
  intros s. apply (C9_select_all s). vm_compute. discriminate.
Defined.

(** ** C10: batch dispatch with nothing selected *)

(** C10.  With an empty selection [processSelectedPages] returns at once:
    the whole state is what it was (every page, the empty selection, the
    [isProcessing] flag), no OCR call is pending for it and nothing was
    alerted. *)
Theorem C10_empty_selection (s : Sys) :
  selectedPages (st s) = ∅ →
  processSelectedPages s = s ∧ handle ProcessSelected s = Some s.
Proof.
  intros Hsel. unfold handle, processSelectedPages. rewrite Hsel.
  rewrite size_empty. rewrite bool_decide_eq_true_2 by reflexivity.
  split; reflexivity.
Qed.

Lemma C10_empty_selection_witness :
  let s := stateAfter [Upload (Some pdf); PdfDecoded 0 twoPages] in
  processSelectedPages s = s ∧ handle ProcessSelected s = Some s.
Proof.
  intros s. apply (C10_empty_selection s). vm_compute. reflexivity.
Defined.

(** ** Beyond the claims: selection by hand, and the upload path *)

(** X1.  Ticking a page's checkbox flips that identifier in the selection
    and nothing else, whatever the state (also while a batch is in
    flight); ticking it twice gives back the state as it was. *)
Theorem toggle_select_flips_one (pid : string) (s : Sys) :
  handleToggleSelectPage pid (handleToggleSelectPage pid s) = s ∧
  (∀ q, q ∈ selectedPages (st (handleToggleSelectPage pid s)) ↔
        (q = pid ∧ pid ∉ selectedPages (st s)) ∨
        (q ≠ pid ∧ q ∈ selectedPages (st s))) ∧
  pages (st (handleToggleSelectPage pid s)) = pages (st s) ∧
  flights (handleToggleSelectPage pid s) = flights s.
Proof.
  destruct s as [[ps sel pr ld cs] fl al].
  unfold handleToggleSelectPage, onState, setSelectedPages.
  cbn [st pages selectedPages isProcessing isPdfLoading copySuccess flights alerts].
  split; [|split; [|split; reflexivity]].
  - f_equal. f_equal.
    destruct (decide (pid ∈ sel)) as [Hin|Hin].
    + rewrite (bool_decide_eq_true_2 _ Hin).
      rewrite bool_decide_eq_false_2 by set_solver.
      apply set_eq. intros q. destruct (decide (q = pid)); set_solver.
    + rewrite (bool_decide_eq_false_2 _ Hin).
      rewrite bool_decide_eq_true_2 by set_solver.
      set_solver.
  - intros q. destruct (decide (pid ∈ sel)) as [Hin|Hin].
    + rewrite (bool_decide_eq_true_2 _ Hin). destruct (decide (q = pid)); set_solver.
    + rewrite (bool_decide_eq_false_2 _ Hin). destruct (decide (q = pid)); set_solver.
Qed.

Lemma omap_id_length {A} (l : list (option A)) :
  (length (omap (λ x : option A, x) l) ≤ length l)%nat ∧
  (length (omap (λ x : option A, x) l) = length l ↔ Forall is_Some l).
Proof.
  unfold omap. induction l as [|[x|] l [IH1 IH2]]; simpl.
  - split; [lia|]. split; [constructor | reflexivity].
  - split; [lia|]. rewrite Forall_cons. split.
    + intros H. split; [eauto | apply IH2; lia].
    + intros [_ H]. f_equal. apply IH2, H.
  - split; [lia|]. rewrite Forall_cons. split.
    + intros H. lia.
    + intros [[? H] _]. discriminate.
Qed.

Lemma newPages_length rs : length (newPages rs) = length (omap (λ x : option Rendered, x) rs).
Proof.
  rewrite <- (length_fmap id (newPages rs)), newPages_ids. apply length_fmap.
Qed.

Lemma newPages_elem_of rs p :
  p ∈ newPages rs ↔ ∃ i r, rs !! i = Some (Some r) ∧ p = newPage i r.
Proof.
  unfold newPages. rewrite list_elem_of_omap. split.
  - intros (x & Hx & ->). apply list_elem_of_lookup in Hx as [i Hi].
    rewrite list_lookup_imap in Hi.
    destruct (rs !! i) as [[r|]|] eqn:Hr; try discriminate.
    simpl in Hi. injection Hi as Hi. exists i, r. split; [exact Hr|].
    congruence.
  - intros (i & r & Hi & ->). exists (Some (newPage i r)). split; [|reflexivity].
    apply list_elem_of_lookup. exists i. rewrite list_lookup_imap, Hi. reflexivity.
Qed.

(** X3.  A PDF file whose decoding succeeds replaces whatever was there:
    the pages are those that rendered, in PDF order, each PENDING with no
    text and no error and with the identifier and preview it was rendered
    with, named [page_N.jpg] by its number N in the PDF; pages that did
    not render are skipped without an alert, so there are at most as many
    pages as the PDF has, and as many exactly when all rendered; the
    selection is empty and the loading flag is down. *)
Theorem upload_decoded (s : Sys) (f : File) (rs : list (option Rendered)) :
  type f = "application/pdf" →
  ∃ s', handle (PdfDecoded (length (flights s)) (Decoded rs))
               (handlePdfFile (Some f) s) = Some s' ∧
        (∀ p, p ∈ pages (st s') ↔
              ∃ i r, rs !! i = Some (Some r) ∧
                     p = mkPage (uuid r)
                           (mkFile ("page_" +:+ pretty (i + 1)%nat +:+ ".jpg") "image/jpeg")
                           PENDING (preview r) None None) ∧
        id <$> pages (st s') = uuid <$> omap (λ x : option Rendered, x) rs ∧
        (length (pages (st s')) ≤ length rs)%nat ∧
        (length (pages (st s')) = length rs ↔ allRendered rs) ∧
        selectedPages (st s') = ∅ ∧
        isPdfLoading (st s') = false ∧
        alerts s' = alerts s ∧
        flights s' = flights s.
Proof.
  intros Hty. unfold handlePdfFile. rewrite Hty.
  change (String.eqb "application/pdf" "application/pdf") with true. cbv iota.
  unfold handle, launch. cbn [flights]. rewrite lookup_newest.
  eexists. split; [reflexivity|].
  destruct s as [[ps sel pr ld cs] fl al].
  unfold land, pdfDecoded, onState.
  cbn [st pages selectedPages isPdfLoading flights alerts
       setPages setSelectedPages setIsPdfLoading setCopySuccess].
  split; [apply newPages_elem_of|]. split; [apply newPages_ids|].
  rewrite newPages_length.
  split; [apply omap_id_length|]. split; [apply omap_id_length|].
  split; [reflexivity|]. split; [reflexivity|]. split; [reflexivity|].
  rewrite delete_middle. apply app_nil_r.
Qed.

Lemma upload_decoded_witness :
  let s := stateAfter (oneDone "ka") in
  let rs := [Some (mkRendered "x" "data:x"); None; Some (mkRendered "y" "data:y")] in
  ∃ s', handle (PdfDecoded (length (flights s)) (Decoded rs))
               (handlePdfFile (Some pdf) s) = Some s' ∧
        (∀ p, p ∈ pages (st s') ↔
              ∃ i r, rs !! i = Some (Some r) ∧
                     p = mkPage (uuid r)
                           (mkFile ("page_" +:+ pretty (i + 1)%nat +:+ ".jpg") "image/jpeg")
                           PENDING (preview r) None None) ∧
        id <$> pages (st s') = uuid <$> omap (λ x : option Rendered, x) rs ∧
        (length (pages (st s')) ≤ length rs)%nat ∧
        (length (pages (st s')) = length rs ↔ allRendered rs) ∧
        selectedPages (st s') = ∅ ∧
        isPdfLoading (st s') = false ∧
        alerts s' = alerts s ∧
        flights s' = flights s.
Proof.
  intros s rs. apply (upload_decoded s pdf rs). reflexivity.
Defined.

(** ** Beyond the claims: what stays put *)

Section Frozen.
Implicit Types (s : Sys) (e : Event) (p : Page) (ps : list Page).

Lemma skeleton_updatePage pid (f : Page → Page) ps :
  (∀ p, skeleton (f p) = skeleton p) →
  skeleton <$> updatePage pid f ps = skeleton <$> ps.
Proof.
  intros Hf. unfold updatePage. rewrite <- list_fmap_compose.
  apply list_fmap_ext. intros _ p _. simpl.
  destruct (String.eqb (id p) pid); [apply Hf | reflexivity].
Qed.

Lemma skeleton_markAll ids ps : skeleton <$> markAll ids ps = skeleton <$> ps.
Proof.
  unfold markAll. rewrite <- list_fmap_compose. apply list_fmap_ext.
  intros _ p _. simpl. destruct (bool_decide _); reflexivity.
Qed.

Lemma skeleton_settle pid o ps : skeleton <$> settle pid o ps = skeleton <$> ps.
Proof. destruct o; apply skeleton_updatePage; intros p; reflexivity. Qed.

Lemma skeleton_processSelectedPages s :
  skeleton <$> pages (st (processSelectedPages s)) = skeleton <$> pages (st s).
Proof.
  destruct (decide (size (selectedPages (st s)) = 0)) as [Hz|Hnz].
  - unfold processSelectedPages. rewrite bool_decide_eq_true_2 by exact Hz. reflexivity.
  - rewrite processSelectedPages_unfold by exact Hnz. cbv zeta.
    destruct s as [[ps sel pr ld cs] fl al].
    destruct (startedPages _); apply skeleton_markAll.
Qed.

Lemma skeleton_retryPageProcessing pid s :
  skeleton <$> pages (st (retryPageProcessing pid s)) = skeleton <$> pages (st s).
Proof.
  unfold retryPageProcessing. destruct (find _ _) as [found|]; [|reflexivity].
  destruct (isProcessing (st s)); [reflexivity|].
  destruct s as [[ps sel pr ld cs] fl al].
  apply skeleton_updatePage. intros x; reflexivity.
Qed.

Lemma pages_ocrSettled k pid o s s' :
  ocrSettled k pid o s = Some s' → pages (st s') = settle pid o (pages (st s)).
Proof.
  unfold ocrSettled. destruct s as [[ps sel pr ld cs] fl al]. cbn [flights].
  destruct (fl !! k) as [[|w|q]|]; try discriminate.
  - destruct (bool_decide _); [|discriminate].
    destruct (settled pid w); intros [= <-]; reflexivity.
  - destruct (String.eqb q pid); [|discriminate]. intros [= <-]. reflexivity.
Qed.

(** With pages in the list, no offered event touches what the pages were
    rendered as. *)
Lemma step_skeleton s e s' :
  Inv s → pages (st s) ≠ [] → step s e = Some s' →
  skeleton <$> pages (st s') = skeleton <$> pages (st s).
Proof.
  intros HI Hne Hstep. unfold step in Hstep.
  destruct (offered s e) eqn:Hoff; [|discriminate].
  destruct e as [f|k o| pid | | | pid | k pid o]; cbn [handle] in Hstep.
  - exfalso. simpl in Hoff.
    apply andb_true_iff in Hoff as [Hoff _].
    apply andb_true_iff in Hoff as [_ Hlen].
    apply bool_decide_eq_true_1 in Hlen. apply nil_length_inv in Hlen. contradiction.
  - exfalso. destruct (decoded_preserves s k o s' HI Hoff) as (_ & Hnil & _).
    + exact Hstep.
    + contradiction.
  - injection Hstep as <-. reflexivity.
  - injection Hstep as <-. unfold handleSelectAll.
    destruct (allProcessableSelected _); reflexivity.
  - injection Hstep as <-. apply skeleton_processSelectedPages.
  - injection Hstep as <-. apply skeleton_retryPageProcessing.
  - rewrite (pages_ocrSettled k pid o s s' Hstep). apply skeleton_settle.
Qed.

Lemma exec_skeleton tr : ∀ s s',
  Inv s → pages (st s) ≠ [] → exec s tr = Some s' →
  skeleton <$> pages (st s') = skeleton <$> pages (st s).
Proof.
  induction tr as [|e tr IH]; intros s s' HI Hne He; simpl in He.
  - injection He as <-. reflexivity.
  - destruct (step s e) as [s1|] eqn:Hs; [|discriminate].
    pose proof (step_skeleton s e s1 HI Hne Hs) as H1.
    rewrite (IH s1 s'); [exact H1 | | | exact He].
    + eapply step_preserves; eauto.
    + intros Hnil. apply Hne. rewrite Hnil in H1.
      destruct (pages (st s)); [reflexivity | discriminate].
Qed.

End Frozen.

(** X4.  Once the component holds pages, it holds those pages for good:
    after any further run the list has the same pages in the same order
    (identifier, image file and preview), and the upload zone is not
    offered, so no other PDF can be loaded. *)
Theorem pages_stay tr s tr' s' :
  exec init tr = Some s → pages (st s) ≠ [] → exec s tr' = Some s' →
  skeleton <$> pages (st s') = skeleton <$> pages (st s) ∧
  ∀ f, offered s' (Upload f) = false.
Proof.
  intros Hr Hne He.
  pose proof (exec_skeleton tr' s s' (reachable_Inv tr s Hr) Hne He) as Hsk.
  split; [exact Hsk|]. intros f. simpl.
  destruct (pages (st s')) as [|p ps] eqn:Hp.
  - destruct (pages (st s)); [congruence | discriminate].
  - rewrite (bool_decide_eq_false_2 (length (p :: ps) = 0)) by (simpl; lia).
    rewrite andb_false_r. reflexivity.
Qed.

Lemma pages_stay_witness :
  let s := stateAfter batchOfTwo in
  let tr' := [OcrSettled 0 "a" (Recognized "ka"); RetryPage "b"] in
  let s' := stateAfter (batchOfTwo ++ tr') in
  skeleton <$> pages (st s') = skeleton <$> pages (st s) ∧
  ∀ f, offered s' (Upload f) = false.
Proof.
  intros s tr' s'. apply (pages_stay batchOfTwo s tr' s').
  - vm_compute. reflexivity.
  - vm_compute. discriminate.
  - vm_compute. reflexivity.
Defined.

Section CompletedForGood.
Implicit Types (s : Sys) (e : Event) (p : Page) (ps : list Page).

Lemma updatePage_other pid (f : Page → Page) ps i p :
  ps !! i = Some p → id p ≠ pid → updatePage pid f ps !! i = Some p.
Proof.
  intros Hi Hne. rewrite updatePage_lookup, Hi. simpl.
  apply String.eqb_neq in Hne. rewrite Hne. reflexivity.
Qed.

Lemma markAll_other ids ps i p :
  ps !! i = Some p → id p ∉ ids → markAll ids ps !! i = Some p.
Proof.
  intros Hi Hn. unfold markAll. rewrite list_lookup_fmap, Hi. simpl.
  rewrite bool_decide_eq_false_2 by exact Hn. reflexivity.
Qed.

(** A page an OCR call is pending for is PROCESSING. *)
Lemma awaited_processing s k fl pid p :
  Inv s → flights s !! k = Some fl → pid ∈ awaited fl →
  p ∈ pages (st s) → id p = pid → status p = PROCESSING.
Proof.
  intros HI Hk Hpid Hin Hid. apply (inv_processing s HI p Hin).
  rewrite Hid. apply list_elem_of_In, in_concat. exists (awaited fl). split.
  - apply list_elem_of_In, list_elem_of_fmap_2.
    eapply list_elem_of_lookup_2; eauto.
  - apply list_elem_of_In, Hpid.
Qed.

Lemma ocrSettled_awaited k pid o s s' :
  ocrSettled k pid o s = Some s' →
  ∃ fl, flights s !! k = Some fl ∧ pid ∈ awaited fl.
Proof.
  unfold ocrSettled. destruct (flights s !! k) as [[|w|q]|]; try discriminate.
  - destruct (bool_decide (pid ∈ w)) eqn:Hw; [|discriminate].
    apply bool_decide_eq_true_1 in Hw. intros _. exists (Batch w). auto.
  - destruct (String.eqb_spec q pid) as [->|]; [|discriminate].
    intros _. exists (Retry pid). split; [reflexivity | apply list_elem_of_here].
Qed.

Lemma step_keeps_completed s e s' i p :
  Inv s → step s e = Some s' →
  pages (st s) !! i = Some p → status p = COMPLETED →
  pages (st s') !! i = Some p.
Proof.
  intros HI Hstep Hi Hc.
  assert (Hin : p ∈ pages (st s)) by (eapply list_elem_of_lookup_2; eauto).
  unfold step in Hstep. destruct (offered s e) eqn:Hoff; [|discriminate].
  destruct e as [f|k o| pid | | | pid | k pid o]; cbn [handle] in Hstep.
  - destruct (upload_preserves s f HI Hoff) as (_ & Hnil & _).
    rewrite Hnil in Hi. discriminate.
  - destruct (decoded_preserves s k o s' HI Hoff Hstep) as (_ & Hnil & _).
    rewrite Hnil in Hi. discriminate.
  - injection Hstep as <-. exact Hi.
  - injection Hstep as <-. unfold handleSelectAll.
    destruct (allProcessableSelected _); exact Hi.
  - injection Hstep as <-.
    destruct (offered_process s HI Hoff) as (Hsz & _ & _).
    rewrite processSelectedPages_unfold by exact Hsz. cbv zeta.
    assert (Hout : id p ∉ id <$> startedPages (st s)).
    { intros Hid.
      pose proof (started_processable _ _ p (inv_ids s HI) Hin Hid) as Hp.
      apply processable_cases in Hp as [Hp|Hp]; congruence. }
    destruct s as [[ps sel pr ld cs] fl al].
    destruct (startedPages _); apply markAll_other; assumption.
  - injection Hstep as <-.
    destruct (offered_retry s pid Hoff) as (p0 & Hin0 & Hid0 & Hst0).
    unfold retryPageProcessing. destruct (find _ _) as [found|]; [|exact Hi].
    destruct (isProcessing (st s)); [exact Hi|].
    destruct s as [[ps sel pr ld cs] fl al].
    apply updatePage_other; [exact Hi|].
    intros Hid. assert (p = p0) as ->; [|congruence].
    apply (id_inj ps); auto. apply (inv_ids _ HI). congruence.
  - rewrite (pages_ocrSettled k pid o s s' Hstep), settle_updatePage.
    apply updatePage_other; [exact Hi|].
    intros Hid. destruct (ocrSettled_awaited k pid o s s' Hstep) as (fl & Hk & Hw).
    pose proof (awaited_processing s k fl pid p HI Hk Hw Hin Hid). congruence.
Qed.

End CompletedForGood.

(** X5.  A page that is COMPLETED is never written again: after any
    further run it is at the same place with the same text, status and
    every other field. *)
Theorem completed_page_is_final tr s i p tr' s' :
  exec init tr = Some s →
  pages (st s) !! i = Some p → status p = COMPLETED →
  exec s tr' = Some s' →
  pages (st s') !! i = Some p.
Proof.
  intros Hr Hi Hc. pose proof (reachable_Inv tr s Hr) as HI. clear Hr.
  revert s HI Hi. induction tr' as [|e tr' IH]; intros s HI Hi He; simpl in He.
  - injection He as <-. exact Hi.
  - destruct (step s e) as [s1|] eqn:Hs; [|discriminate].
    apply (IH s1); [| |exact He].
    + eapply step_preserves; eauto.
    + eapply step_keeps_completed; eauto.
Qed.

Lemma completed_page_is_final_witness :
  let tr := (batchOfTwo ++ [OcrSettled 0 "a" (Recognized "ka")])%list in
  let tr' := [ToggleSelect "a"; ToggleSelect "b"; ProcessSelected;
              OcrSettled 0 "b" (Recognized "kha")] in
  let p := mkPage "a" (mkFile "page_1.jpg" "image/jpeg") COMPLETED "data:a"
                  (Some "ka") None in
  pages (st (stateAfter (tr ++ tr'))) !! 0 = Some p.
Proof.
  intros tr tr' p.
  apply (completed_page_is_final tr (stateAfter tr) 0 p tr' (stateAfter (tr ++ tr'))).
  - vm_compute. reflexivity.
  - vm_compute. reflexivity.
  - reflexivity.
  - vm_compute. reflexivity.
Defined.

(** ** Beyond the claims: the selection, the flag and the pages agree *)

Section Anchoring.
Implicit Types (s : Sys) (e : Event) (p : Page) (ps : list Page).

Lemma page_moves_ids ps ps' :
  Forall2 page_moves ps ps' → id <$> ps' = id <$> ps.
Proof.
  induction 1 as [|p p' ps ps' [Hid _] _ IH]; [reflexivity|].
  rewrite !fmap_cons, Hid, IH. reflexivity.
Qed.

Lemma started_ids_in_pages (a : AppState) i :
  i ∈ id <$> startedPages a → i ∈ id <$> pages a.
Proof.
  intros (q & -> & Hq)%list_elem_of_fmap. apply list_elem_of_fmap_2.
  apply list_elem_of_filter in Hq as [_ Hq].
  apply list_elem_of_filter in Hq as [_ Hq]. exact Hq.
Qed.

Lemma find_page_in ps pid q :
  find (λ x, String.eqb (id x) pid) ps = Some q → pid ∈ id <$> ps.
Proof.
  intros Hf. apply find_some in Hf as [Hin E]. apply String.eqb_eq in E.
  rewrite <- E. apply list_elem_of_fmap_2, list_elem_of_In, Hin.
Qed.

Lemma Anchored_init : Anchored init.
Proof. split; simpl; intros i Hi; [set_solver | inversion Hi]. Qed.

Lemma step_Anchored s e s' :
  Inv s → Anchored s → step s e = Some s' → Anchored s'.
Proof.
  intros HI [Hsel Haw] Hstep.
  destruct (step_preserves s e s' HI Hstep) as [HI' Hmove].
  unfold step in Hstep. destruct (offered s e) eqn:Hoff; [|discriminate].
  destruct e as [f|k o| pid | | | pid | k pid o]; cbn [handle] in Hstep.
  - (* upload: the list was empty, so nothing was selected or awaited *)
    destruct (upload_preserves s f HI Hoff) as (_ & Hnil & _).
    injection Hstep as <-. clear HI' Hmove Hoff HI.
    destruct s as [[ps sel pr ld cs] fl al]. cbn [st pages selectedPages flights] in *.
    subst ps. unfold handlePdfFile.
    destruct f as [f|]; [destruct (String.eqb (type f) "application/pdf")|];
      split; cbn; try assumption.
    + intros i Hi. set_solver.
    + intros i Hi. rewrite fmap_app, concat_app in Hi.
      apply elem_of_app in Hi as [Hi|Hi]; [exact (Haw i Hi) | inversion Hi].
  - destruct (decoded_preserves s k o s' HI Hoff Hstep) as (_ & Hnil & _).
    destruct (flights s !! k) as [[| |]|] eqn:Hk; try discriminate.
    injection Hstep as <-.
    assert (Hfl : flights s = [Decoding] ∧ k = 0).
    { destruct HI as [_ _ Hs _]. destruct s as [a fl al]. cbn in *.
      inversion Hs; subst; destruct k as [|[|k]]; try discriminate; auto. }
    destruct Hfl as [Hfl ->]. clear HI' Hmove Hoff HI Hk.
    destruct s as [[ps sel pr ld cs] fl al]. cbn in Hfl, Hsel, Haw, Hnil.
    subst fl ps. split.
    + intros i Hi. exfalso.
      assert (Hi' : i ∈ sel) by (destruct o; exact Hi).
      specialize (Hsel i Hi'). inversion Hsel.
    + intros i Hi. destruct o; inversion Hi.
  - injection Hstep as <-. simpl in Hoff. apply bool_decide_eq_true_1 in Hoff.
    destruct s as [[ps sel pr ld cs] fl al]. split; cbn in *; [|exact Haw].
    intros i. destruct (bool_decide (pid ∈ sel)).
    + intros Hi. apply Hsel. set_solver.
    + intros [Hi| ->%elem_of_singleton]%elem_of_union; [apply Hsel, Hi | exact Hoff].
  - injection Hstep as <-. unfold handleSelectAll.
    destruct s as [[ps sel pr ld cs] fl al].
    destruct (allProcessableSelected _); split; cbn in *; try exact Haw.
    + intros i Hi. set_solver.
    + intros i Hi%elem_of_list_to_set. unfold processablePageIds in Hi.
      apply list_elem_of_fmap in Hi as (q & -> & Hq). apply list_elem_of_fmap_2.
      apply list_elem_of_filter in Hq as [_ Hq]. exact Hq.
  - injection Hstep as <-.
    destruct (offered_process s HI Hoff) as (Hsz & _ & Hfl).
    pose proof (started_ids_in_pages (st s)) as Hst.
    rewrite processSelectedPages_unfold by exact Hsz. cbv zeta.
    destruct s as [[ps sel pr ld cs] fl al]. cbn in Hfl. subst fl.
    cbn [st pages] in Hst.
    destruct (startedPages _) as [|q started] eqn:Hstart; split; cbn -[markAll].
    + intros i Hi. set_solver.
    + intros i Hi. inversion Hi.
    + intros i Hi. rewrite markAll_ids. apply Hsel, Hi.
    + intros i Hi. rewrite app_nil_r in Hi. rewrite markAll_ids.
      apply Hst. rewrite fmap_cons. exact Hi.
  - injection Hstep as <-. unfold retryPageProcessing.
    destruct (find _ _) as [found|] eqn:Hfind; [|split; assumption].
    destruct (isProcessing (st s)) eqn:Hp; [split; assumption|].
    pose proof (idle_or_decoding := inv_shape s HI).
    apply find_page_in in Hfind.
    destruct s as [[ps sel pr ld cs] fl al]. cbn in *. split; cbn -[markRetrying].
    + intros i Hi. rewrite markRetrying_ids. apply Hsel, Hi.
    + intros i Hi. rewrite markRetrying_ids.
      rewrite fmap_app, concat_app in Hi.
      apply elem_of_app in Hi as [Hi|Hi]; [exact (Haw i Hi)|].
      cbn in Hi. apply list_elem_of_singleton in Hi. subst i. exact Hfind.
  - pose proof (pages_ocrSettled k pid o s s' Hstep) as Hpages.
    assert (Hids : id <$> pages (st s') = id <$> pages (st s))
      by (rewrite Hpages; apply settle_ids).
    unfold ocrSettled in Hstep.
    destruct HI as [_ _ Hs _].
    destruct s as [[ps sel pr ld cs] fl al]. cbn [st flights pages selectedPages] in *.
    inversion Hs as [a H1 H2 E| a H1 H2 H3 E| a w0 H1 H2 H3 H4 E| a p0 H1 H2 E];
      subst fl; destruct k as [|[|k]]; cbn in Hstep; try discriminate.
    + destruct (bool_decide (pid ∈ w0)); [|discriminate].
      destruct (settled pid w0) as [|x rest] eqn:Hrest; injection Hstep as <-;
        split; cbn -[settle].
      * intros i Hi. set_solver.
      * intros i Hi. inversion Hi.
      * intros i Hi. rewrite settle_ids. apply Hsel, Hi.
      * intros i Hi. rewrite settle_ids. apply Haw. cbn.
        rewrite app_nil_r in *. rewrite <- Hrest in Hi.
        apply settled_elem_of in Hi as [Hi _]; assumption.
    + destruct (String.eqb p0 pid); [|discriminate]. injection Hstep as <-.
      split; cbn -[settle].
      * intros i Hi. rewrite settle_ids. apply Hsel, Hi.
      * intros i Hi. inversion Hi.
Qed.

Lemma reachable_Anchored tr : ∀ s, exec init tr = Some s → Anchored s.
Proof.
  assert (H : ∀ s0 s, Inv s0 → Anchored s0 → exec s0 tr = Some s → Anchored s).
  { induction tr as [|e tr IH]; intros s0 s HI HA He; simpl in He.
    - injection He as <-. exact HA.
    - destruct (step s0 e) as [s1|] eqn:Hs; [|discriminate].
      apply (IH s1 s); [| |exact He].
      + eapply step_preserves; eauto.
      + eapply step_Anchored; eauto. }
  intros s. apply H; [apply Inv_init | apply Anchored_init].
Qed.

End Anchoring.

Lemma isProcessing_iff_page tr s :
  exec init tr = Some s →
  isProcessing (st s) = true ↔ ∃ p, p ∈ pages (st s) ∧ status p = PROCESSING.
Proof.
  intros Hr. pose proof (reachable_Inv tr s Hr) as HI.
  pose proof (reachable_Anchored tr s Hr) as [_ Haw].
  pose proof (inv_processing s HI) as Hproc.
  pose proof (inv_shape s HI) as Hs.
  assert (Hsome : ∀ x, x ∈ concat (awaited <$> flights s) →
                       ∃ p, p ∈ pages (st s) ∧ status p = PROCESSING).
  { intros x Hx. pose proof (Haw x Hx) as Hx'.
    apply list_elem_of_fmap in Hx' as (p & -> & Hp).
    exists p. split; [exact Hp|]. apply Hproc; assumption. }
  assert (Hnone : concat (awaited <$> flights s) = [] →
                  ¬ ∃ p, p ∈ pages (st s) ∧ status p = PROCESSING).
  { intros E (p & Hp & Hst). apply (Hproc p Hp) in Hst.
    rewrite E in Hst. inversion Hst. }
  inversion Hs as [a H1 H2 E| a H1 H2 H3 E| a w0 H1 H2 H3 H4 E| a p0 H1 H2 E];
    rewrite <- E in Hsome, Hnone; cbn in Hsome, Hnone.
  - split; [congruence | intros H; exfalso; apply Hnone; auto].
  - split; [congruence | intros H; exfalso; apply Hnone; auto].
  - split; [|auto]. intros _. destruct w0 as [|x w0]; [congruence|].
    apply (Hsome x). apply list_elem_of_here.
  - split; [|auto]. intros _. apply (Hsome p0). apply list_elem_of_here.
Qed.

(** X6.  In every state the component reaches, [isProcessing] is up
    exactly when some page is PROCESSING; and while a page is PROCESSING
    no batch can be started, the select-all box is disabled and
    [retryPageProcessing] returns at once for every identifier. *)
Theorem processing_flag_tracks_pages tr s :
  exec init tr = Some s →
  (isProcessing (st s) = true ↔ ∃ p, p ∈ pages (st s) ∧ status p = PROCESSING) ∧
  ((∃ p, p ∈ pages (st s) ∧ status p = PROCESSING) →
   offered s ProcessSelected = false ∧ offered s SelectAll = false ∧
   ∀ pid, retryPageProcessing pid s = s).
Proof.
  intros Hr. pose proof (isProcessing_iff_page tr s Hr) as Hiff.
  split; [exact Hiff|]. intros Hp. apply Hiff in Hp.
  split; [|split].
  - simpl. rewrite Hp, orb_true_r, andb_false_r. reflexivity.
  - simpl. rewrite Hp, orb_true_r, andb_false_r. reflexivity.
  - intros pid. unfold retryPageProcessing. rewrite Hp.
    destruct (find _ _); reflexivity.
Qed.

Lemma processing_flag_tracks_pages_witness :
  let s := stateAfter batchOfTwo in
  (isProcessing (st s) = true ↔ ∃ p, p ∈ pages (st s) ∧ status p = PROCESSING) ∧
  ((∃ p, p ∈ pages (st s) ∧ status p = PROCESSING) →
   offered s ProcessSelected = false ∧ offered s SelectAll = false ∧
   ∀ pid, retryPageProcessing pid s = s).
Proof.
  intros s. apply (processing_flag_tracks_pages batchOfTwo s). vm_compute. reflexivity.
Defined.

(** X7.  In every state the component reaches, every selected identifier
    is the identifier of a page of the list, and the number shown as
    "pages selected" ([selectedPages.size]) is the number of pages that
    are ticked. *)
Theorem selection_counts_pages tr s :
  exec init tr = Some s →
  (∀ i, i ∈ selectedPages (st s) → i ∈ id <$> pages (st s)) ∧
  size (selectedPages (st s)) =
    length (filter (λ p, id p ∈ selectedPages (st s)) (pages (st s))).
Proof.
  intros Hr. pose proof (inv_ids s (reachable_Inv tr s Hr)) as Hids.
  pose proof (reachable_Anchored tr s Hr) as [Hsel _].
  split; [exact Hsel|].
  set (sel := selectedPages (st s)) in *. set (ps := pages (st s)) in *.
  assert (E : sel = list_to_set (id <$> filter (λ p, id p ∈ sel) ps)).
  { apply set_eq. intros i. rewrite elem_of_list_to_set, list_elem_of_fmap. split.
    - intros Hi. pose proof (Hsel i Hi) as Hi'.
      apply list_elem_of_fmap in Hi' as (p & -> & Hp).
      exists p. split; [reflexivity|]. apply list_elem_of_filter. auto.
    - intros (p & -> & Hp). apply list_elem_of_filter in Hp as [Hp _]. exact Hp. }
  rewrite E at 1. rewrite size_list_to_set, length_fmap; [reflexivity|].
  apply NoDup_fmap_2_strong.
  - intros x y Hx Hy. apply (id_inj ps); auto.
    + apply list_elem_of_filter in Hx as [_ Hx]. exact Hx.
    + apply list_elem_of_filter in Hy as [_ Hy]. exact Hy.
  - apply NoDup_filter. eapply NoDup_fmap_1. exact Hids.
Qed.

Lemma selection_counts_pages_witness :
  let s := stateAfter [Upload (Some pdf); PdfDecoded 0 twoPages; ToggleSelect "b"] in
  (∀ i, i ∈ selectedPages (st s) → i ∈ id <$> pages (st s)) ∧
  size (selectedPages (st s)) =
    length (filter (λ p, id p ∈ selectedPages (st s)) (pages (st s))).
Proof.
  intros s.
  apply (selection_counts_pages
           [Upload (Some pdf); PdfDecoded 0 twoPages; ToggleSelect "b"] s).
  vm_compute. reflexivity.
Defined.

(** ** Beyond the claims: copying, and the heading of the panel *)

Lemma join_cons_nonempty sep x l : x ≠ "" → join sep (x :: l) ≠ "".
Proof.
  intros Hx. destruct x as [|c x]; [congruence|].
  destruct l; simpl; discriminate.
Qed.

Lemma filter_nil_Forall {A} (P : A → Prop) `{∀ x, Decision (P x)} (l : list A) :
  filter P l = [] ↔ Forall (λ x, ¬ P x) l.
Proof.
  induction l as [|x l IH]; [split; [constructor | reflexivity]|].
  rewrite filter_cons, Forall_cons. destruct (decide (P x)) as [Hp|Hp].
  - split; [discriminate | intros [Hn _]; contradiction].
  - rewrite IH. tauto.
Qed.

(** X8.  The copy handler hands the combined text to the clipboard, and
    returns at once, copying nothing, exactly when no page is COMPLETED
    with a non-empty text; so it copies nothing while the only completed
    pages have an empty text, although the copy button is rendered for
    them. *)
Theorem copy_needs_shown_text (a : AppState) :
  (copyToClipboard a = None ↔ Forall (λ p, shown p = false) (pages a)) ∧
  (∀ t, copyToClipboard a = Some t → t = combinedText a ∧ t ≠ "") ∧
  (completedPages a ≠ [] →
   Forall (λ p, truthy (text p) = false) (completedPages a) →
   copyToClipboard a = None).
Proof.
  assert (Hempty : combinedText a = "" ↔ Forall (λ p, shown p = false) (pages a)).
  { unfold combinedText.
    change (filter (λ p, bool_decide (status p = COMPLETED) && truthy (text p) = true)
                   (pages a))
      with (filter (λ p, shown p = true) (pages a)).
    assert (Hj : ∀ (g : Page → string) (l : list Page),
               (∀ p, g p ≠ "") → join (newline +:+ newline) (g <$> l) = "" ↔ l = []).
    { intros g l Hg. destruct l as [|p l]; [split; reflexivity|].
      split; [|discriminate]. intros H. exfalso. revert H.
      rewrite fmap_cons. apply join_cons_nonempty, Hg. }
    rewrite Hj by (intros p; discriminate).
    rewrite filter_nil_Forall. apply Forall_iff. intros p. apply not_true_iff_false. }
  assert (Hnone : copyToClipboard a = None ↔ combinedText a = "").
  { unfold copyToClipboard. destruct (String.eqb_spec (combinedText a) "");
      split; congruence || discriminate. }
  split; [rewrite Hnone; exact Hempty|]. split.
  - intros t. unfold copyToClipboard.
    destruct (String.eqb_spec (combinedText a) ""); [discriminate|].
    intros [= <-]. auto.
  - intros _ Hall. apply Hnone, Hempty. apply Forall_forall. intros p Hp.
    unfold shown. destruct (decide (status p = COMPLETED)) as [Hc|Hc].
    + rewrite Forall_forall in Hall. rewrite (Hall p), andb_false_r; [reflexivity|].
      apply list_elem_of_filter. auto.
    + rewrite bool_decide_eq_false_2 by exact Hc. reflexivity.
Qed.

Lemma forallb_false_witness {A} (f : A → bool) (l : list A) :
  forallb f l = false → ∃ x, x ∈ l ∧ f x = false.
Proof.
  induction l as [|x l IH]; simpl; [discriminate|].
  destruct (f x) eqn:Hx; simpl.
  - intros H. destruct (IH H) as (y & Hy & Hf). exists y.
    split; [apply list_elem_of_further, Hy | exact Hf].
  - intros _. exists x. split; [apply list_elem_of_here | exact Hx].
Qed.

(** X9.  While the panel is rendered (there are pages), its heading tells
    the state the pages are in, in every state the component reaches:
    - "Processing Pages..." exactly while some page is PROCESSING;
    - "Processing Complete", with the number of FAILED pages when there
      are any, when every page is COMPLETED or FAILED and none is being
      processed;
    - "Progress: d/n pages done" otherwise, and then some page is still
      PENDING, none is PROCESSING and d is less than n. *)
Theorem panel_title_tells tr s :
  exec init tr = Some s → pages (st s) ≠ [] →
  (isProcessing (st s) = true ∧
   (∃ p, p ∈ pages (st s) ∧ status p = PROCESSING) ∧
   panelTitle (st s) = "Processing Pages...") ∨
  (isProcessing (st s) = false ∧
   Forall (λ p, status p = COMPLETED ∨ status p = FAILED) (pages (st s)) ∧
   panelTitle (st s) =
     if bool_decide (0 < failedCount (st s))
     then "Processing Complete (" +:+ pretty (failedCount (st s)) +:+ " failed)"
     else "Processing Complete") ∨
  (isProcessing (st s) = false ∧
   (∃ p, p ∈ pages (st s) ∧ status p = PENDING) ∧
   Forall (λ p, status p ≠ PROCESSING) (pages (st s)) ∧
   (doneCount (st s) < length (pages (st s)))%nat ∧
   panelTitle (st s) =
     "Progress: " +:+ pretty (doneCount (st s)) +:+ "/"
     +:+ pretty (length (pages (st s))) +:+ " pages done").
Proof.
  intros Hr Hne. pose proof (isProcessing_iff_page tr s Hr) as Hiff.
  unfold panelTitle. destruct (isProcessing (st s)) eqn:Hp.
  { left. split; [reflexivity|]. split; [apply Hiff; reflexivity | reflexivity]. }
  right.
  assert (Hnone : Forall (λ p, status p ≠ PROCESSING) (pages (st s))).
  { apply Forall_forall. intros p Hin Hst.
    assert (H : false = true) by (apply Hiff; eauto). discriminate. }
  unfold allPagesDone.
  rewrite bool_decide_eq_false_2
    by (destruct (pages (st s)); [congruence | simpl; lia]).
  destruct (forallb _ (pages (st s))) eqn:Hall.
  - left. split; [reflexivity|]. split; [|reflexivity].
    apply Forall_forall. intros p Hin.
    rewrite forallb_forall in Hall. apply list_elem_of_In in Hin.
    apply Hall, orb_true_iff in Hin as [H|H]; apply bool_decide_eq_true_1 in H; auto.
  - right. split; [reflexivity|].
    assert (Hex : ∃ p, p ∈ pages (st s) ∧ status p = PENDING).
    { destruct (forallb_false_witness _ _ Hall) as (p & Hin & Hf).
      exists p. split; [exact Hin|].
      apply orb_false_iff in Hf as [H1 H2].
      apply bool_decide_eq_false_1 in H1, H2.
      rewrite Forall_forall in Hnone. specialize (Hnone p Hin).
      destruct (status p); congruence. }
    split; [exact Hex|]. split; [exact Hnone|]. split; [|reflexivity].
    destruct Hex as (p & Hin & Hst). unfold doneCount.
    apply (length_filter_lt _ _ p Hin). rewrite Hst. intros [?|?]; discriminate.
Qed.

Lemma panel_title_tells_witness :
  let s := stateAfter (batchOfTwo ++ [OcrSettled 0 "a" (Recognized "ka")]) in
  (isProcessing (st s) = true ∧
   (∃ p, p ∈ pages (st s) ∧ status p = PROCESSING) ∧
   panelTitle (st s) = "Processing Pages...") ∨
  (isProcessing (st s) = false ∧
   Forall (λ p, status p = COMPLETED ∨ status p = FAILED) (pages (st s)) ∧
   panelTitle (st s) =
     if bool_decide (0 < failedCount (st s))
     then "Processing Complete (" +:+ pretty (failedCount (st s)) +:+ " failed)"
     else "Processing Complete") ∨
  (isProcessing (st s) = false ∧
   (∃ p, p ∈ pages (st s) ∧ status p = PENDING) ∧
   Forall (λ p, status p ≠ PROCESSING) (pages (st s)) ∧
   (doneCount (st s) < length (pages (st s)))%nat ∧
   panelTitle (st s) =
     "Progress: " +:+ pretty (doneCount (st s)) +:+ "/"
     +:+ pretty (length (pages (st s))) +:+ " pages done").
Proof.
  intros s.
  apply (panel_title_tells (batchOfTwo ++ [OcrSettled 0 "a" (Recognized "ka")]) s).
  - vm_compute. reflexivity.
  - vm_compute. discriminate.
Defined.

(** ** Beyond the claims: processing everything *)

Section Everything.
Variable ocr : string → OcrOutcome.
Implicit Types (s : Sys) (p : Page) (ps : list Page).

(** A whole batch, from the click to the last settlement. *)
Lemma batch_run s (order : list string) :
  Inv s → offered s ProcessSelected = true →
  order ≡ₚ id <$> startedPages (st s) →
  ∃ s2, exec s (ProcessSelected :: settlements ocr order) = Some s2 ∧
        pages (st s2) =
          (λ p, if dispatched (st s) p then settledPage (ocr (id p)) p else p)
            <$> pages (st s) ∧
        flights s2 = [] ∧ selectedPages (st s2) = ∅ ∧ isProcessing (st s2) = false ∧
        isPdfLoading (st s2) = isPdfLoading (st s) ∧
        copySuccess (st s2) = copySuccess (st s) ∧ alerts s2 = alerts s.
Proof.
  intros HI Hoff Hperm.
  destruct (offered_process s HI Hoff) as (Hsz & _ & Hfl).
  pose proof (inv_ids s HI) as Hids.
  cbn [exec]. unfold step at 1. rewrite Hoff. cbn [handle].
  rewrite processSelectedPages_unfold by exact Hsz. cbv zeta.
  destruct s as [a fl al]. cbn [st flights alerts] in *. subst fl.
  set (ids := id <$> startedPages a) in *.
  assert (Hnd : NoDup ids)
    by (unfold ids, startedPages; apply started_NoDup, Hids).
  assert (Hfinal : (λ p, if bool_decide (id p ∈ order)
                         then settledPage (ocr (id p)) p else p)
                     <$> markAll ids (pages a)
                   = (λ p, if dispatched a p then settledPage (ocr (id p)) p else p)
                     <$> pages a).
  { unfold markAll. rewrite <- list_fmap_compose. apply list_fmap_ext.
    intros i p Hp. apply list_elem_of_lookup_2 in Hp. simpl.
    pose proof (started_iff_dispatched a p Hids Hp) as Hiff. fold ids in Hiff.
    destruct (dispatched a p).
    - assert (Hin : id p ∈ ids) by (by apply Hiff).
      rewrite (bool_decide_eq_true_2 _ Hin). simpl.
      rewrite bool_decide_eq_true_2 by (rewrite Hperm; exact Hin).
      destruct (ocr (id p)); reflexivity.
    - assert (Hin : id p ∉ ids) by (intros Hc; apply Hiff in Hc; discriminate).
      rewrite (bool_decide_eq_false_2 _ Hin).
      rewrite bool_decide_eq_false_2 by (rewrite Hperm; exact Hin).
      reflexivity. }
  destruct (startedPages a) as [|q started] eqn:Hst.
  - apply Permutation_nil_r in Hperm. subst order.
    eexists. split; [reflexivity|].
    cbn [st pages flights selectedPages isProcessing isPdfLoading copySuccess alerts
         batchDone setIsProcessing setSelectedPages setPages].
    split; [|repeat split]. rewrite <- Hfinal. unfold markAll at 1.
    rewrite <- (list_fmap_id (_ <$> pages a)) at 1.
    apply list_fmap_ext. intros i p _. reflexivity.
  - unfold launch. cbn [st flights alerts app].
    rewrite (settle_all ocr order ids);
      [| subst ids; discriminate | exact Hnd | exact Hperm].
    eexists. split; [reflexivity|].
    cbn [st pages flights selectedPages isProcessing isPdfLoading copySuccess alerts
         batchDone setIsProcessing setSelectedPages setPages].
    split; [|repeat split]. rewrite foldl_settle by (rewrite Hperm; exact Hnd).
    exact Hfinal.
Qed.

Lemma filter_ext_in {A} (P Q : A → Prop) `{∀ x, Decision (P x)} `{∀ x, Decision (Q x)}
    (l : list A) :
  (∀ x, x ∈ l → P x ↔ Q x) → filter P l = filter Q l.
Proof.
  induction l as [|x l IH]; intros Hpq; [reflexivity|].
  rewrite !filter_cons.
  assert (Hx : P x ↔ Q x) by (apply Hpq, list_elem_of_here).
  rewrite IH by (intros y Hy; apply Hpq, list_elem_of_further, Hy).
  destruct (decide (P x)), (decide (Q x)); tauto || reflexivity.
Qed.

(** Counting the FAILED pages after every processable page was settled. *)
Lemma failed_after ps (g : Page → Page) :
  (∀ p, p ∈ ps →
        status (g p) = FAILED ↔ processable p = true ∧ threw (ocr (id p)) = true) →
  length (filter (λ p, status p = FAILED) (g <$> ps)) =
  length (filter (λ i, threw (ocr i) = true)
                 (id <$> filter (λ p, processable p = true) ps)).
Proof.
  induction ps as [|x ps IH]; intros Hg; [reflexivity|].
  assert (Hx := Hg x (list_elem_of_here x ps)).
  specialize (IH (λ p Hp, Hg p (list_elem_of_further p x ps Hp))).
  rewrite fmap_cons, !filter_cons.
  destruct (decide (status (g x) = FAILED)) as [Hf|Hf].
  - apply Hx in Hf as [Hp Ht]. rewrite decide_True by exact Hp.
    rewrite fmap_cons, filter_cons, decide_True by exact Ht.
    simpl. f_equal. exact IH.
  - destruct (decide (processable x = true)) as [Hp|Hp]; [|exact IH].
    rewrite fmap_cons, filter_cons.
    rewrite decide_False by (intros Ht; apply Hf, Hx; auto). exact IH.
Qed.

End Everything.

Lemma filter_filter_absorb {A} (P Q : A → Prop) `{∀ x, Decision (P x)} `{∀ x, Decision (Q x)}
    (l : list A) :
  (∀ x, x ∈ l → P x → Q x) → filter P (filter Q l) = filter P l.
Proof.
  induction l as [|x l IH]; intros Hpq; [reflexivity|].
  assert (Hx : P x → Q x) by (apply Hpq, list_elem_of_here).
  specialize (IH (λ y Hy, Hpq y (list_elem_of_further y x l Hy))).
  rewrite (filter_cons Q). destruct (decide (Q x)) as [Hq|Hq].
  - rewrite !filter_cons, IH. reflexivity.
  - rewrite IH, filter_cons. rewrite decide_False by tauto. reflexivity.
Qed.

Lemma not_processable_idle s p :
  Inv s → flights s = [] → p ∈ pages (st s) → processable p = false →
  status p = COMPLETED.
Proof.
  intros HI Hfl Hin Hp. pose proof (inv_processing s HI p Hin) as Hproc.
  rewrite Hfl in Hproc. unfold processable in Hp.
  apply orb_false_iff in Hp as [H1 H2].
  apply bool_decide_eq_false_1 in H1, H2.
  destruct (status p) eqn:E; try congruence.
  exfalso. assert (H : PROCESSING = PROCESSING) by reflexivity.
  apply Hproc in H. inversion H.
Qed.

(** X10.  With the select-all box enabled and not yet checked, checking it
    and pressing the process button dispatches every PENDING and every
    FAILED page; once those calls have settled, in whatever order, every
    page is COMPLETED or FAILED ([allPagesDone]), the pages counted as
    failed are exactly those whose call threw, nothing is selected and
    nothing is in flight. *)
Theorem process_everything tr s (ocr : string → OcrOutcome) (order : list string) :
  exec init tr = Some s →
  offered s SelectAll = true →
  allProcessableSelected (st s) = false →
  order ≡ₚ processablePageIds (st s) →
  ∃ s2, exec s (SelectAll :: ProcessSelected :: settlements ocr order) = Some s2 ∧
        allPagesDone (st s2) = true ∧
        failedCount (st s2) =
          length (filter (λ i, threw (ocr i) = true) (processablePageIds (st s))) ∧
        flights s2 = [] ∧ selectedPages (st s2) = ∅.
Proof.
  intros Hr Hoff Hnot Hperm. pose proof (reachable_Inv tr s Hr) as HI.
  pose proof Hoff as Hoff'. simpl in Hoff'.
  apply andb_true_iff in Hoff' as [Hlen Hoff'].
  apply negb_true_iff, orb_false_iff in Hoff' as [Hids Hidle].
  apply bool_decide_eq_true_1 in Hlen. apply bool_decide_eq_false_1 in Hids.
  set (s1 := onState (setSelectedPages
                        (λ _, list_to_set (processablePageIds (st s)))) s).
  assert (HI1 : Inv s1) by (apply Inv_selection, HI).
  assert (Hsel : ∀ p, p ∈ pages (st s) → processable p = true →
                      id p ∈ selectedPages (st s1)).
  { intros p Hin Hp. subst s1. unfold onState, setSelectedPages.
    cbn [st selectedPages].
    apply elem_of_list_to_set. unfold processablePageIds.
    apply list_elem_of_fmap_2, list_elem_of_filter. auto. }
  assert (Hoff1 : offered s1 ProcessSelected = true).
  { unfold offered. subst s1. unfold onState, setSelectedPages.
    cbn [st pages selectedPages isProcessing].
    rewrite (bool_decide_eq_true_2 _ Hlen), Hidle, orb_false_r.
    rewrite bool_decide_eq_false_2; [reflexivity|].
    intros Hz. apply size_empty_iff in Hz.
    destruct (processablePageIds (st s)) as [|x l] eqn:E; [simpl in Hids; lia|].
    apply (not_elem_of_empty (C:=gset string) x). rewrite <- Hz.
    apply elem_of_list_to_set, list_elem_of_here. }
  assert (Hstarted : id <$> startedPages (st s1) = processablePageIds (st s)).
  { unfold startedPages, processablePageIds. f_equal.
    apply filter_filter_absorb. intros p Hin Hp. apply (Hsel p Hin Hp). }
  destruct (batch_run ocr s1 order HI1 Hoff1) as (s2 & Hrun & Hpages & Hfl2 & Hsel2 & _).
  { rewrite Hstarted. exact Hperm. }
  destruct (offered_process s1 HI1 Hoff1) as (_ & _ & Hfl1).
  assert (Hfl : flights s = []) by exact Hfl1.
  assert (Hg : pages (st s2) =
               (λ p, if processable p then settledPage (ocr (id p)) p else p)
                 <$> pages (st s)).
  { rewrite Hpages. change (pages (st s1)) with (pages (st s)).
    apply list_fmap_ext. intros i p Hi. apply list_elem_of_lookup_2 in Hi.
    unfold dispatched. destruct (processable p) eqn:Hp.
    - rewrite bool_decide_eq_true_2 by (apply Hsel; assumption). reflexivity.
    - rewrite andb_false_r. reflexivity. }
  exists s2. split; [|split; [|split; [|split]]]; try assumption.
  - cbn [exec]. unfold step at 1. rewrite Hoff. cbn [handle].
    unfold handleSelectAll. rewrite Hnot. exact Hrun.
  - unfold allPagesDone. rewrite Hg, length_fmap.
    rewrite bool_decide_eq_false_2 by lia.
    apply forallb_forall. intros x Hx. apply list_elem_of_In in Hx.
    apply list_elem_of_fmap in Hx as (p & -> & Hin).
    destruct (processable p) eqn:Hp.
    + destruct (ocr (id p)); reflexivity.
    + rewrite (not_processable_idle s p HI Hfl Hin Hp). reflexivity.
  - unfold failedCount. rewrite Hg. apply failed_after.
    intros p Hin. destruct (processable p) eqn:Hp.
    + destruct (ocr (id p)); simpl; split;
        try (intros [_ ?]); try (intros ?); try discriminate; auto.
    + rewrite (not_processable_idle s p HI Hfl Hin Hp).
      split; [discriminate | intros [? _]; discriminate].
Qed.

Lemma process_everything_witness :
  let tr := [Upload (Some pdf); PdfDecoded 0 twoPages] in
  let s := stateAfter tr in
  let ocr := λ pid, if String.eqb pid "a" then Recognized "ka" else ThrownError "quota" in
  ∃ s2, exec s (SelectAll :: ProcessSelected :: settlements ocr ["b"; "a"]) = Some s2 ∧
        allPagesDone (st s2) = true ∧
        failedCount (st s2) =
          length (filter (λ i, threw (ocr i) = true) (processablePageIds (st s))) ∧
        flights s2 = [] ∧ selectedPages (st s2) = ∅.
Proof.
  intros tr s ocr. apply (process_everything tr s ocr ["b"; "a"]).
  - vm_compute. reflexivity.
  - vm_compute. reflexivity.
  - vm_compute. reflexivity.
  - vm_compute. apply perm_swap.
Defined.

(** X11.  The outcome of a batch does not depend on the order in which its
    OCR calls settle: from a state the component reaches, with the process
    button enabled, two runs that settle the same calls with the same
    outcomes in different orders end in the same state. *)
Theorem settlement_order_is_irrelevant tr s (ocr : string → OcrOutcome)
    (order1 order2 : list string) :
  exec init tr = Some s →
  offered s ProcessSelected = true →
  order1 ≡ₚ id <$> startedPages (st s) →
  order2 ≡ₚ order1 →
  ∃ s2, exec s (ProcessSelected :: settlements ocr order1) = Some s2 ∧
        exec s (ProcessSelected :: settlements ocr order2) = Some s2.
Proof.
  intros Hr Hoff H1 H2. pose proof (reachable_Inv tr s Hr) as HI.
  destruct (batch_run ocr s order1 HI Hoff H1)
    as (s2 & Hrun & Hpg & Hfl & Hsel & Hp & Hld & Hcs & Hal).
  destruct (batch_run ocr s order2 HI Hoff)
    as (s2' & Hrun' & Hpg' & Hfl' & Hsel' & Hp' & Hld' & Hcs' & Hal').
  { rewrite H2. exact H1. }
  exists s2. split; [exact Hrun|]. rewrite Hrun'. f_equal.
  destruct s2 as [[ps sel pr ld cs] fl al], s2' as [[ps' sel' pr' ld' cs'] fl' al'].
  cbn in *. congruence.
Qed.

Lemma settlement_order_is_irrelevant_witness :
  let tr := [Upload (Some pdf); PdfDecoded 0 twoPages; ToggleSelect "a"; ToggleSelect "b"] in
  let s := stateAfter tr in
  let ocr := λ pid, if String.eqb pid "a" then Recognized "ka" else ThrownError "quota" in
  ∃ s2, exec s (ProcessSelected :: settlements ocr ["a"; "b"]) = Some s2 ∧
        exec s (ProcessSelected :: settlements ocr ["b"; "a"]) = Some s2.
Proof.
  intros tr s ocr. apply (settlement_order_is_irrelevant tr s ocr ["a"; "b"] ["b"; "a"]).
  - vm_compute. reflexivity.
  - vm_compute. reflexivity.
  - vm_compute. reflexivity.
  - apply perm_swap.
Defined.

(** X12.  Pressing the process button with a selection that holds no
    PENDING and no FAILED page (only pages that are COMPLETED or
    PROCESSING, or identifiers of no page) starts no OCR call: every page
    stays as it is, and the handler runs to its end at once, emptying the
    selection and lowering [isProcessing]. *)
Theorem process_nothing_to_dispatch (s : Sys) :
  selectedPages (st s) ≠ ∅ →
  (∀ p, p ∈ pages (st s) → id p ∈ selectedPages (st s) → processable p = false) →
  processSelectedPages s =
  mkSys (mkAppState (pages (st s)) ∅ false (isPdfLoading (st s)) (copySuccess (st s)))
        (flights s) (alerts s).
Proof.
  intros Hsel Hnone.
  rewrite processSelectedPages_unfold
    by (intros Hz; apply size_empty_iff in Hz; apply Hsel;
        apply leibniz_equiv, Hz).
  cbv zeta.
  assert (Hst : startedPages (st s) = []).
  { unfold startedPages. apply elem_of_nil_inv. intros p Hp.
    apply list_elem_of_filter in Hp as [Hp Hin].
    apply list_elem_of_filter in Hin as [Hin Hin'].
    rewrite (Hnone p Hin' Hin) in Hp. discriminate. }
  rewrite Hst. destruct s as [[ps sel pr ld cs] fl al].
  unfold batchDone, setIsProcessing, setSelectedPages, setPages.
  cbn [st pages selectedPages isProcessing isPdfLoading copySuccess flights alerts].
  rewrite markAll_nil. reflexivity.
Qed.

Lemma process_nothing_to_dispatch_witness :
  let s := stateAfter (oneDone "ka" ++ [ToggleSelect "a"]) in
  processSelectedPages s =
  mkSys (mkAppState (pages (st s)) ∅ false (isPdfLoading (st s)) (copySuccess (st s)))
        (flights s) (alerts s).
Proof.
  intros s. apply (process_nothing_to_dispatch s).
  - vm_compute. discriminate.
  - intros p Hin _.
    assert (H : Forall (λ q, processable q = false) (pages (st s)))
      by (vm_compute; repeat constructor).
    rewrite Forall_forall in H. apply H, Hin.
Defined.

(** X13.  While a PDF is being decoded ([isPdfLoading] is up), in every
    state the component reaches, there are no pages, nothing is selected,
    and the only event that can happen is the arrival of the decoding
    result. *)
Theorem decoding_blocks_everything tr s :
  exec init tr = Some s → isPdfLoading (st s) = true →
  pages (st s) = [] ∧ selectedPages (st s) = ∅ ∧ flights s = [Decoding] ∧
  ∀ e s', step s e = Some s' → ∃ o, e = PdfDecoded 0 o.
Proof.
  intros Hr Hld. pose proof (reachable_Inv tr s Hr) as HI.
  pose proof (reachable_Anchored tr s Hr) as [Hsel _].
  pose proof (inv_shape s HI) as Hs.
  destruct s as [[ps sel pr ld cs] fl al]. cbn in *. subst ld.
  inversion Hs as [a H1 H2 E| a H1 H2 H3 E| a w0 H1 H2 H3 H4 E| a p0 H1 H2 E];
    subst; cbn in *; try discriminate; subst.
  split; [reflexivity|]. split; [|split; [reflexivity|]].
  - apply set_eq. intros i. split; [|set_solver].
    intros Hi. specialize (Hsel i Hi). inversion Hsel.
  - intros e s' Hstep. unfold step in Hstep.
    destruct e as [f|k o| pid | | | pid | k pid o]; cbn in Hstep; try discriminate.
    + destruct k as [|k]; [eauto|].
      destruct (bool_decide _); [|discriminate].
      destruct k; discriminate.
    + unfold ocrSettled in Hstep. cbn in Hstep.
      destruct k as [|[|k]]; discriminate.
Qed.

Lemma decoding_blocks_everything_witness :
  let s := stateAfter [Upload (Some pdf)] in
  pages (st s) = [] ∧ selectedPages (st s) = ∅ ∧ flights s = [Decoding] ∧
  ∀ e s', step s e = Some s' → ∃ o, e = PdfDecoded 0 o.
Proof.
  intros s. apply (decoding_blocks_everything [Upload (Some pdf)] s).
  - vm_compute. reflexivity.
  - vm_compute. reflexivity.
Defined.
